(** * A/B testing platform: assignment, reset, statistics and contingency table

    Shallow embedding of [src/ab_test.py] ([Reset], [Experiment]) and of
    [MongoRepository.get_contingency_table] from [src/database.py].

    Modelling conventions.
    - A MongoDB collection is the list of its documents in natural order; a
      database maps collection names to collections and a client maps
      database names to databases.
    - An applicant document is a record with the schema fields the code reads
      ([_id], [createdAt], [admissionsQuiz]) and the two experiment fields,
      which a document may lack ([None] is an absent field).
    - A [datetime] is an integer number of microseconds; the range limits of
      the date library and the [strftime]/[strptime] round trip of the day
      key are not modelled.
    - Python's process-global generator is a state threaded through the
      functions that draw from it; [random.seed] and the generator's
      [_randbelow] are the two operations of the class [Random].
    - Python exceptions are the constructors of [exn]; code that can raise
      returns a [result]. *)

From stdpp Require Import gmap strings list fin_maps sorting.
From Stdlib Require Import ZArith QArith Qcanon Lia.

Local Open Scope Z_scope.

(** ** Exceptions *)

Inductive exn :=
  | ZeroDivisionError
  | KeyError (key : string)
  | IndexError.

Inductive result (A : Type) :=
  | Ok (a : A)
  | Raise (e : exn).
Arguments Ok {A} a.
Arguments Raise {A} e.

#[global] Instance result_ret : MRet result := λ A a, Ok a.
#[global] Instance result_bind : MBind result := λ A B f m,
  match m with
  | Ok a => f a
  | Raise e => Raise e
  end.

(** ** Documents *)

Record user := User {
  _id : nat;
  createdAt : Z;
  admissionsQuiz : string;
  inExperiment : option bool;
  group : option string
}.

#[global] Instance user_eq_dec : EqDecision user.
Proof. solve_decision. Defined.

(** One calendar day, [timedelta(days=1)], in microseconds. *)
Definition one_day : Z := 86400000000.

Definition CONTROL : string := "No email (control)".
Definition TREATMENT : string := "email (treatment)".

(** ** pymongo collections *)

Record UpdateResult := mkUpdateResult {
  matched_count : nat;
  modified_count : nat
}.

Module Collection.

(** [collection.find(query)]: the matching documents, in natural order. *)
Definition find (q : user → Prop) `{!∀ u, Decision (q u)}
    (c : list user) : list user :=
  filter q c.

(** [collection.count_documents(query)]. *)
Definition count_documents (q : user → Prop) `{!∀ u, Decision (q u)}
    (c : list user) : nat :=
  length (filter q c).

(** An update changes a document or leaves it as it was; only a changed
    document counts as modified. *)
Definition modified (old new : user) : nat :=
  if decide (new = old) then 0%nat else 1%nat.

(** [collection.update_one(query, update)]: the first matching document. *)
Fixpoint update_one (q : user → Prop) `{!∀ u, Decision (q u)}
    (upd : user → user) (c : list user) : list user * UpdateResult :=
  match c with
  | [] => ([], mkUpdateResult 0 0)
  | u :: c' =>
      if decide (q u)
      then (upd u :: c', mkUpdateResult 1 (modified u (upd u)))
      else let '(c'', r) := update_one q upd c' in (u :: c'', r)
  end.

(** [collection.update_many(query, update)]: every matching document. *)
Fixpoint update_many (q : user → Prop) `{!∀ u, Decision (q u)}
    (upd : user → user) (c : list user) : list user * UpdateResult :=
  match c with
  | [] => ([], mkUpdateResult 0 0)
  | u :: c' =>
      let '(c'', r) := update_many q upd c' in
      if decide (q u)
      then (upd u :: c'',
            mkUpdateResult (S (matched_count r))
                           (modified u (upd u) + modified_count r))
      else (u :: c'', r)
  end.

(** [{"$set": {"inExperiment": ie, "group": g}}] *)
Definition set_experiment (ie : option bool) (g : option string)
    (u : user) : user :=
  {| _id := _id u; createdAt := createdAt u;
     admissionsQuiz := admissionsQuiz u;
     inExperiment := ie; group := g |}.

(** [{"$unset": {"inExperiment": "", "group": ""}}] *)
Definition unset_experiment (u : user) : user :=
  {| _id := _id u; createdAt := createdAt u;
     admissionsQuiz := admissionsQuiz u;
     inExperiment := None; group := None |}.

End Collection.

(** ** Queries of the repository *)

(** [{"inExperiment": True}] *)
Definition q_in_experiment (u : user) : Prop := inExperiment u = Some true.

(** [{"_id": i}] *)
Definition q_id (i : nat) (u : user) : Prop := _id u = i.

(** [{"createdAt": {"$gte": start_date, "$lt": end_date},
      "admissionsQuiz": "incomplete"}] *)
Definition q_created_incomplete (start_date end_date : Z) (u : user) : Prop :=
  (start_date ≤ createdAt u ∧ createdAt u < end_date)
  ∧ admissionsQuiz u = "incomplete"%string.

(** [{"inExperiment": True, "group": g}] *)
Definition q_group (g : string) (u : user) : Prop :=
  inExperiment u = Some true ∧ group u = Some g.

(** [{"inExperiment": True, "group": g, "admissionsQuiz": "complete"}] *)
Definition q_group_complete (g : string) (u : user) : Prop :=
  (inExperiment u = Some true ∧ group u = Some g)
  ∧ admissionsQuiz u = "complete"%string.

#[global] Instance q_in_experiment_dec u : Decision (q_in_experiment u).
Proof. unfold q_in_experiment. apply _. Defined.
#[global] Instance q_id_dec i u : Decision (q_id i u).
Proof. unfold q_id. apply _. Defined.
#[global] Instance q_created_incomplete_dec s e u :
  Decision (q_created_incomplete s e u).
Proof. unfold q_created_incomplete. apply _. Defined.
#[global] Instance q_group_dec g u : Decision (q_group g u).
Proof. unfold q_group. apply _. Defined.
#[global] Instance q_group_complete_dec g u : Decision (q_group_complete g u).
Proof. unfold q_group_complete. apply _. Defined.

(** ** class Reset *)

Abbreviation database := (gmap string (list user)).
Abbreviation mongo_client := (gmap string (gmap string (list user))).

Module Reset.

(** The [update_many] call both branches of [reset_database] make. *)
Definition reset_collection (c : list user) : list user * UpdateResult :=
  Collection.update_many q_in_experiment Collection.unset_experiment c.

(** What [Reset] was constructed with: a client, or (the [isinstance]
    branch) a single named collection. *)
Inductive client :=
  | OfMongoClient (mc : mongo_client)
  | OfCollection (name : string) (c : list user).

(** [Reset.reset_database(db_name)]: the store afterwards and the summary
    [{collection_name: {"matched": _, "modified": _}}]. A database that
    does not exist lists no collection. *)
Definition reset_database (cl : client) (db_name : string)
    : client * gmap string UpdateResult :=
  match cl with
  | OfCollection name c =>
      let '(c', r) := reset_collection c in
      (OfCollection name c', {[ name := r ]})
  | OfMongoClient mc =>
      match mc !! db_name with
      | None => (OfMongoClient mc, ∅)
      | Some db =>
          (OfMongoClient (<[db_name := (fst ∘ reset_collection) <$> db]> mc),
           (snd ∘ reset_collection) <$> db)
      end
  end.

End Reset.

(** ** The pseudorandom generator

    [seed] is [random.seed(n)] and [randbelow g n] is the generator's
    [_randbelow(n)]: an index below [n] and the generator's next state. The
    Mersenne Twister behind them is library code and stays abstract. *)

Class Random (G : Type) := {
  seed : Z → G;
  randbelow : G → nat → nat * G
}.

Section shuffle.
Context {G : Type} `{!Random G} {A : Type}.

(** [x[i], x[j] = x[j], x[i]] *)
Definition swap (i j : nat) (x : list A) : list A :=
  match x !! i, x !! j with
  | Some xi, Some xj => <[j := xi]> (<[i := xj]> x)
  | _, _ => x
  end.

(** The loop of [random.shuffle]:
    [for i in reversed(range(1, len(x))): j = randbelow(i + 1); swap]. *)
Fixpoint shuffle_from (i : nat) (x : list A) (g : G) : list A * G :=
  match i with
  | O => (x, g)
  | S i' =>
      let '(j, g') := randbelow g (S i) in
      shuffle_from i' (swap i j x) g'
  end.

Definition shuffle (x : list A) (g : G) : list A * G :=
  shuffle_from (length x - 1) x g.
End shuffle.

(** ** class Experiment *)

Record GroupStats := mkGroupStats {
  total : nat;
  completed : nat;
  completion_rate : Qc
}.

Record Stats := mkStats {
  control_group : GroupStats;
  treatment_group : GroupStats;
  difference : Qc
}.

(** The dictionary [run_experiment] returns. [daily_results] is keyed by the
    day; the keys are inserted in increasing order, so none is overwritten
    and the list of pairs is the dictionary in insertion order. *)
Record RunResult := mkRunResult {
  days : Z;
  total_assigned : nat;
  daily_results : list (Z * gmap string nat);
  statistics : Stats
}.

(** [a / b] on Python integers; the quotient is kept exact. *)
Definition truediv (a b : nat) : result Qc :=
  if decide (b = 0%nat) then Raise ZeroDivisionError
  else Ok (Qc_of_Z (Z.of_nat a) / Qc_of_Z (Z.of_nat b))%Qc.

Module Experiment.

(** The object's fields: the names given to the constructor and the
    collection handle (database name, collection name) it resolved. *)
Record t := mk {
  db_name : string;
  collection_name : string;
  collection : string * string
}.

(** What the constructor is given as [repo]: nothing, a client, or a
    repository whose own [collection] handle is taken over. *)
Inductive repo_arg :=
  | NoRepo
  | RepoClient
  | RepoRepository (handle : string * string).

Definition init (repo : repo_arg) (db collection : string) : t :=
  match repo with
  | NoRepo | RepoClient => mk db collection (db, collection)
  | RepoRepository handle => mk db collection handle
  end.

(** [reset_experiment]: every collection of database [db_name] is reset,
    and the summary of [collection_name] (zeros when absent) returned. *)
Definition reset_experiment (self : t) (mc : mongo_client)
    : Reset.client * UpdateResult :=
  let '(cl, result) :=
    Reset.reset_database (Reset.OfMongoClient mc) (db_name self) in
  (cl, default (mkUpdateResult 0 0) (result !! collection_name self)).

(** [_count_users_for_date] *)
Definition _count_users_for_date (date : Z) (c : list user)
    : gmap string nat :=
  let start_date := date in
  let end_date := start_date + one_day in
  let count :=
    Collection.count_documents (q_created_incomplete start_date end_date) c in
  {[ "count"%string := count ]}.

(** [_calculate_experiment_stats] *)
Definition _calculate_experiment_stats (c : list user) : result Stats :=
  let control_count := Collection.count_documents (q_group CONTROL) c in
  let treatment_count := Collection.count_documents (q_group TREATMENT) c in
  let control_completed :=
    Collection.count_documents (q_group_complete CONTROL) c in
  let treatment_completed :=
    Collection.count_documents (q_group_complete TREATMENT) c in
  control_rate ←
    (if decide (0 < control_count)%nat
     then truediv control_completed control_count else Ok 0%Qc);
  treatment_rate ←
    (if decide (0 < treatment_count)%nat
     then truediv treatment_completed treatment_count else Ok 0%Qc);
  mret (mkStats
          (mkGroupStats control_count control_completed control_rate)
          (mkGroupStats treatment_count treatment_completed treatment_rate)
          (treatment_rate - control_rate)%Qc).

Section with_random.
Context {G : Type} `{!Random G}.

(** The loop [for user in all_users: update_one(...)] with its two
    running counters. *)
Definition update_all (all_users : list user) (c : list user)
    : list user * nat * nat :=
  foldl (λ '(c, matched, modified) user,
           let '(c', r) :=
             Collection.update_one (q_id (_id user))
               (Collection.set_experiment (inExperiment user) (group user))
               c in
           (c', (matched + matched_count r)%nat,
                (modified + modified_count r)%nat))
        (c, 0%nat, 0%nat) all_users.

(** [_assign_groups_for_date]: the collection and the generator
    afterwards, and the returned dictionary. *)
Definition _assign_groups_for_date (date : Z) (c : list user) (g : G)
    : list user * G * gmap string nat :=
  let start_date := date in
  let end_date := start_date + one_day in
  let users :=
    Collection.find (q_created_incomplete start_date end_date) c in
  let '(users, g) := shuffle users g in
  let midpoint := (length users / 2)%nat in
  let control_group :=
    Collection.set_experiment (Some true) (Some CONTROL)
      <$> take midpoint users in
  let treatment_group :=
    Collection.set_experiment (Some true) (Some TREATMENT)
      <$> drop midpoint users in
  let all_users := control_group ++ treatment_group in
  let '(c, matched_count, modified_count) := update_all all_users c in
  (c, g,
   <[ "n"%string := matched_count ]>
     (<[ "n_modified"%string := modified_count ]>
        (<[ "control_size"%string := length control_group ]>
           {[ "treatment_size"%string := length treatment_group ]}))).

(** The loop [while current_date < end_date] of [run_experiment]. The
    [hasattr(self, 'repo')] test is false on every object, [__init__]
    sets no such attribute, so assignment is [_assign_groups_for_date]. *)
Fixpoint run_days (fuel : nat) (assignment : bool)
    (current_date end_date : Z) (c : list user) (g : G)
    (daily_results : list (Z * gmap string nat))
    : list user * G * list (Z * gmap string nat) :=
  match fuel with
  | O => (c, g, daily_results)
  | S fuel' =>
      if decide (current_date < end_date) then
        let '(c', g', result) :=
          if assignment then _assign_groups_for_date current_date c g
          else (c, g, _count_users_for_date current_date c) in
        run_days fuel' assignment (current_date + one_day) end_date
          c' g' (daily_results ++ [(current_date, result)])
      else (c, g, daily_results)
  end.

(** [run_experiment(days, assignment, seed)] at clock reading [now]. The
    loop runs [days] times when [days] is positive and not at all
    otherwise, so [Z.to_nat days_] steps are all it can take. *)
Definition run_experiment (now : Z) (days_ : Z) (assignment : bool)
    (seed_ : Z) (c : list user) (g : G)
    : list user * G * result RunResult :=
  let g := if assignment then seed seed_ else g in
  let end_date := now - now `mod` one_day in
  let start_date := end_date - days_ * one_day in
  let '(c, g, daily) :=
    run_days (Z.to_nat days_) assignment start_date end_date c g [] in
  let total_assigned :=
    sum_list_with (λ day, default 0%nat (day.2 !! "n"%string)) daily in
  (c, g,
   stats ← _calculate_experiment_stats c;
   mret (mkRunResult days_ total_assigned daily stats)).
End with_random.

End Experiment.

(** ** MongoRepository.get_contingency_table *)

(** Lexicographic order on labels, the order pandas sorts them in. *)
Definition label_le (s1 s2 : string) : Prop := String.leb s1 s2 = true.

#[global] Instance label_le_dec s1 s2 : Decision (label_le s1 s2).
Proof. unfold label_le. apply _. Defined.

Module MongoRepository.

(** A row of the data frame after [dropna()]: no cell is missing. *)
Record row := Row {
  r_id : nat;
  r_createdAt : Z;
  r_admissionsQuiz : string;
  r_inExperiment : bool;
  r_group : string
}.

(** The frame's row for a document, unless [dropna()] drops it because
    one of its cells is empty. *)
Definition to_row (u : user) : option row :=
  ie ← inExperiment u;
  g ← group u;
  Some (Row (_id u) (createdAt u) (admissionsQuiz u) ie g).

(** [Series.unique()]: the distinct values in order of first appearance. *)
Fixpoint unique (l : list string) : list string :=
  match l with
  | [] => []
  | x :: l' => x :: filter (λ y, y ≠ x) (unique l')
  end.

(** [frame.iloc[0]] *)
Definition iloc0 (df : list row) : result row :=
  match df with
  | [] => Raise IndexError
  | r :: _ => Ok r
  end.

(** [r = r.copy(); r['admissionsQuiz'] = s] *)
Definition with_quiz (s : string) (r : row) : row :=
  Row (r_id r) (r_createdAt r) s (r_inExperiment r) (r_group r).

(** [for group_type in df['group'].unique(): ...] *)
Fixpoint group_rows (df : list row) (groups : list string)
    : result (list row) :=
  match groups with
  | [] => Ok []
  | group_type :: groups' =>
      group_row ← iloc0 (filter (λ r, r_group r = group_type) df);
      new_rows ← group_rows df groups';
      mret (with_quiz "completed" group_row :: new_rows)
  end.

(** [while len(new_rows) < 3: new_rows.append(copy of df.iloc[0])], run
    for the [missing] rounds the loop has left. *)
Fixpoint pad_rows (missing : nat) (df new_rows : list row)
    : result (list row) :=
  match missing with
  | O => Ok new_rows
  | S missing' =>
      new_row ← iloc0 df;
      pad_rows missing' df (new_rows ++ [with_quiz "completed" new_row])
  end.

(** The result of [pd.crosstab]: row labels, column labels and the matrix
    of counts, labels sorted and without repetition. *)
Record crosstab_t := mkCrosstab {
  index : list string;
  columns : list string;
  values : list (list nat)
}.

Definition labels (l : list string) : list string :=
  merge_sort label_le (remove_dups l).

Definition count_cell (df : list row) (g s : string) : nat :=
  length (filter (λ r, r_group r = g ∧ r_admissionsQuiz r = s) df).

Definition crosstab (df : list row) : crosstab_t :=
  let index := labels (r_group <$> df) in
  let columns := labels (r_admissionsQuiz <$> df) in
  mkCrosstab index columns
    ((λ g, (λ s, count_cell df g s) <$> columns) <$> index).

(** [table.loc[g, s]], and 0 where the table has no such label. *)
Definition cell (t : crosstab_t) (g s : string) : nat :=
  match list_find (λ x, x = g) (index t), list_find (λ x, x = s) (columns t) with
  | Some (i, _), Some (j, _) => default 0%nat (values t !! i ≫= (.!! j))
  | _, _ => 0%nat
  end.

(** [get_contingency_table]. A frame built from no document has no
    column, and one built from documents none of which has a [group] has
    no [group] column: indexing it raises [KeyError]. Otherwise every
    other cell of a row is filled, and [dropna()] drops the rows whose
    [group] is empty. *)
Definition get_contingency_table (c : list user) : result crosstab_t :=
  let result := Collection.find q_in_experiment c in
  if decide (result = []) then Raise (KeyError "admissionsQuiz")
  else if decide (Forall (λ u, group u = None) result)
  then Raise (KeyError "group")
  else
    let df := omap to_row result in
    df ←
      (if decide ("completed"%string ∉ unique (r_admissionsQuiz <$> df))
       then
         new_rows ← group_rows df (unique (r_group <$> df));
         new_rows ← pad_rows (3 - length new_rows) df new_rows;
         mret (df ++ new_rows)
       else mret df);
    mret (crosstab df).

(** [$dateTrunc: {date: "$createdAt", unit: "day"}] *)
Definition day_of (t : Z) : Z := t - t `mod` one_day.

(** What [squeeze()] leaves of a one-column frame: the series, or the bare
    value when the frame has a single row. *)
Inductive squeezed :=
  | Series (rows : list (Z * nat))
  | Scalar (value : nat).

(** [get_no_quiz_per_day]: the incomplete-quiz documents grouped by the day
    of [createdAt] and counted, indexed by date and sorted on it, then
    squeezed. A frame built from no group has no column ["date"] to index
    by. *)
Definition get_no_quiz_per_day (c : list user) : result squeezed :=
  let matched := filter (λ u, admissionsQuiz u = "incomplete"%string) c in
  let dates :=
    merge_sort Z.le (remove_dups ((day_of ∘ createdAt) <$> matched)) in
  let no_quiz :=
    (λ d, (d, length (filter (λ u, day_of (createdAt u) = d) matched)))
      <$> dates in
  match no_quiz with
  | [] => Raise (KeyError "date")
  | [(_, new_users)] => Ok (Scalar new_users)
  | _ => Ok (Series no_quiz)
  end.

(** The ladder of degrees of [__ed_sort] and its dictionary
    [{k: v for v, k in enumerate(degrees)}]. *)
Definition degrees : list string :=
  ["High School or Baccalaureate"; "Some College (1-3 years)";
   "Bachelor's degree"; "Master's degree"; "Doctorate (e.g. PhD)"]%string.

Definition mapping : gmap string nat :=
  foldl (λ m '(v, k), <[k := v]> m) ∅ (imap pair degrees).

(** [__ed_sort]: [[mapping[c] for c in counts]]; a label that is no key of
    the dictionary raises [KeyError]. *)
Fixpoint __ed_sort (counts : list string) : result (list nat) :=
  match counts with
  | [] => Ok []
  | c :: counts' =>
      v ← match mapping !! c with
          | Some v => Ok v
          | None => Raise (KeyError c)
          end;
      sort_order ← __ed_sort counts';
      mret (v :: sort_order)
  end.

End MongoRepository.

(** ** StatsBuilder.run_experiment *)

(** The documents behind a collection handle; a collection that does not
    exist holds none, and writes that match nothing do not create it. *)
Definition get_collection (mc : mongo_client) (handle : string * string)
    : list user :=
  default [] (mc !! handle.1 ≫= λ db, db !! handle.2).

Definition set_collection (mc : mongo_client) (handle : string * string)
    (c : list user) : mongo_client :=
  match mc !! handle.1 with
  | Some db =>
      match db !! handle.2 with
      | Some _ => <[ handle.1 := <[ handle.2 := c ]> db ]> mc
      | None => mc
      end
  | None => mc
  end.

(** The store a [Reset] object leaves: its client's. *)
Definition store_of (cl : Reset.client) (mc : mongo_client) : mongo_client :=
  match cl with
  | Reset.OfMongoClient mc' => mc'
  | Reset.OfCollection _ _ => mc
  end.

Module StatsBuilder.

(** [run_experiment(days)] of a [StatsBuilder] whose repository holds the
    collection handle [repo]: an [Experiment] is made for database
    ["wqu-abtest"] and collection ["ds-applicants"] but works on the
    repository's collection; it is reset and run with the default
    [assignment=True] and [seed=42]. The run's result is dropped. *)
Definition run_experiment {G : Type} `{!Random G} (repo : string * string)
    (now days_ : Z) (mc : mongo_client) (g : G)
    : mongo_client * G * result unit :=
  let exp :=
    Experiment.init (Experiment.RepoRepository repo)
      "wqu-abtest" "ds-applicants" in
  let '(cl, _) := Experiment.reset_experiment exp mc in
  let mc := store_of cl mc in
  let '(c, g, result) :=
    Experiment.run_experiment now days_ true 42
      (get_collection mc (Experiment.collection exp)) g in
  (set_collection mc (Experiment.collection exp) c, g,
   _ ← result; mret ()).

End StatsBuilder.

(** ** Predicates and instances the statements use *)

(** The documents [reset_database] addresses: those of the collection
    [Reset] holds, or of every collection of the named database. *)
Definition addressed (cl : Reset.client) (db_name : string) (u : user) : Prop :=
  match cl with
  | Reset.OfCollection _ c => u ∈ c
  | Reset.OfMongoClient mc =>
      ∃ (db : gmap string (list user)) (name : string) (c : list user),
        mc !! db_name = Some db ∧ db !! name = Some c ∧ u ∈ c
  end.

(** The experiment fields as assignment writes them: a document that has
    either field has [inExperiment] true. *)
Definition fields_paired (u : user) : Prop :=
  is_Some (inExperiment u) ∨ is_Some (group u) → inExperiment u = Some true.

(** A generator whose state is a counter: a draw below [n] is the counter
    modulo [n] and advances it by one. *)
#[global] Instance counter_random : Random Z := {|
  seed := λ s, s;
  randbelow := λ g n, (Z.to_nat (g `mod` Z.of_nat n), g + 1)
|}.

(** A store where a document carries a group label although it is not
    marked as taking part in an experiment. *)
Definition store_unpaired : mongo_client :=
  {[ "online_course"%string :=
       {[ "applicants"%string :=
            [User 1 0 "incomplete" None (Some CONTROL)] ]} ]}.

(** A store whose one collection holds a control and a treatment member. *)
Definition store_assigned : mongo_client :=
  {[ "online_course"%string :=
       {[ "applicants"%string :=
            [User 1 10 "incomplete" (Some true) (Some CONTROL);
             User 2 20 "incomplete" (Some true) (Some TREATMENT)] ]} ]}.

(** A control member who has completed the quiz and a treatment member who
    has not. *)
Definition mixed_assigned : list user :=
  [User 1 10 "complete" (Some true) (Some CONTROL);
   User 2 20 "incomplete" (Some true) (Some TREATMENT)].

(** The default store of the application, database ["online_course"],
    holding an applicant assigned by an earlier run ten days ago. *)
Definition store_stale : mongo_client :=
  {[ "online_course"%string :=
       {[ "applicants"%string :=
            [User 1 (-864000000000) "incomplete" (Some true)
               (Some TREATMENT)] ]} ]}.

(** Two applicants who signed up on day 0 and have not taken the quiz. *)
Definition two_applicants : list user :=
  [User 1 10 "incomplete" None None; User 2 20 "incomplete" None None].

(** Ten applicants of day 0, six of whom have not completed the quiz. *)
Definition ten_applicants : list user :=
  [User 1 10 "incomplete" None None; User 2 20 "complete" None None;
   User 3 30 "incomplete" None None; User 4 40 "complete" None None;
   User 5 50 "incomplete" None None; User 6 60 "complete" None None;
   User 7 70 "incomplete" None None; User 8 80 "complete" None None;
   User 9 90 "incomplete" None None; User 10 100 "incomplete" None None].

(** One control and one treatment member, neither has taken the quiz. *)
Definition two_assigned : list user :=
  [User 1 10 "incomplete" (Some true) (Some CONTROL);
   User 2 20 "incomplete" (Some true) (Some TREATMENT)].

(** The number of documents stored with group [g] and quiz status [s]. *)
Definition stored_count (c : list user) (g s : string) : nat :=
  length (filter (λ u, q_group g u ∧ admissionsQuiz u = s) c).

(** For collection [c] the table construction either raises a condition
    or returns the table that every collection with the same stored counts
    gets, as a smoothing rule on the counts would have it. *)
Definition signalled_or_smoothed (c : list user) : Prop :=
  match MongoRepository.get_contingency_table c with
  | Raise _ => True
  | Ok t =>
      ∀ c' t',
        (∀ g s, stored_count c' g s = stored_count c g s) →
        MongoRepository.get_contingency_table c' = Ok t' →
        ∀ g s, MongoRepository.cell t' g s = MongoRepository.cell t g s
  end.

(** The rate the statistics are to report for a group. *)
Definition rate_of (completed total : nat) : Qc :=
  if decide (total = 0%nat) then 0%Qc
  else (Qc_of_Z (Z.of_nat completed) / Qc_of_Z (Z.of_nat total))%Qc.

(** The day's cohort: what the [find] of [_assign_groups_for_date] and the
    [count_documents] of [_count_users_for_date] select. *)
Definition cohort (date : Z) (c : list user) : list user :=
  Collection.find (q_created_incomplete date (date + one_day)) c.

(** The list [all_users] of [_assign_groups_for_date]: the shuffled cohort,
    its first half labelled control and the rest treatment. *)
Definition labelled {G : Type} `{!Random G} (date : Z) (c : list user) (g : G)
    : list user :=
  let users := (shuffle (cohort date c) g).1 in
  let midpoint := (length users / 2)%nat in
  (Collection.set_experiment (Some true) (Some CONTROL)
     <$> take midpoint users)
  ++ (Collection.set_experiment (Some true) (Some TREATMENT)
        <$> drop midpoint users).

(** What no update of the experiment fields changes in a document. *)
Definition base (u : user) : nat * Z * string :=
  (_id u, createdAt u, admissionsQuiz u).

(** The data frame [get_contingency_table] works on: the rows of the
    documents marked [inExperiment] that [dropna()] keeps. *)
Definition frame (c : list user) : list MongoRepository.row :=
  omap MongoRepository.to_row (Collection.find q_in_experiment c).

(** The rows the table construction makes up when it finds no row with
    status ["completed"]: for each group a copy of the group's first row,
    then copies of the frame's first row until there are three, each with
    its status rewritten. *)
Definition first_in_group (df : list MongoRepository.row) (g : string)
    : option MongoRepository.row :=
  head (filter (λ r, MongoRepository.r_group r = g) df).

Definition synthetic (df : list MongoRepository.row)
    : list MongoRepository.row :=
  let groups := MongoRepository.unique (MongoRepository.r_group <$> df) in
  match df with
  | [] => []
  | r0 :: _ =>
      omap (λ g, MongoRepository.with_quiz "completed"
                   <$> first_in_group df g) groups
      ++ replicate (3 - length groups)
           (MongoRepository.with_quiz "completed" r0)
  end.

(** What the update of one labelled user does to a stored document, and
    what the updates of a whole list of them do, one after the other. *)
Definition relabel_one (u v : user) : user :=
  if decide (_id v = _id u)
  then Collection.set_experiment (inExperiment u) (group u) v else v.

Definition relabel (us : list user) (v : user) : user :=
  foldl (λ v u, relabel_one u v) v us.


(** A document as assignment leaves it: marked, with one of the two group
    labels. *)
Definition assigned (u : user) : Prop :=
  inExperiment u = Some true
  ∧ (group u = Some CONTROL ∨ group u = Some TREATMENT).

(** The documents with quiz status incomplete, and the rows of the series
    [get_no_quiz_per_day] builds from them before it is squeezed. *)
Definition incomplete (c : list user) : list user :=
  filter (λ u, admissionsQuiz u = "incomplete"%string) c.

Definition no_quiz_rows (c : list user) : list (Z * nat) :=
  (λ d, (d, length (filter (λ u, MongoRepository.day_of (createdAt u) = d)
                      (incomplete c))))
    <$> merge_sort Z.le
          (remove_dups ((MongoRepository.day_of ∘ createdAt)
                          <$> incomplete c)).

(** * Properties *)

(** ** Collections *)

Section collection_facts.
Context (q : user → Prop) `{!∀ u, Decision (q u)} (upd : user → user).

Lemma update_many_fst c :
  (Collection.update_many q upd c).1
  = (λ u, if decide (q u) then upd u else u) <$> c.
Proof.
  induction c as [|u c IH]; [done|]. rewrite fmap_cons, <- IH. simpl.
  destruct (Collection.update_many q upd c) as [c'' r].
  by destruct (decide (q u)).
Qed.

Lemma update_many_matched c :
  matched_count (Collection.update_many q upd c).2
  = Collection.count_documents q c.
Proof.
  unfold Collection.count_documents.
  induction c as [|u c IH]; [done|]. simpl.
  destruct (Collection.update_many q upd c) as [c'' r]. simpl in IH.
  rewrite filter_cons. destruct (decide (q u)); simpl; by rewrite IH.
Qed.

Lemma update_many_modified_le c :
  (modified_count (Collection.update_many q upd c).2
   ≤ matched_count (Collection.update_many q upd c).2)%nat.
Proof.
  induction c as [|u c IH]; [done|]. simpl.
  destruct (Collection.update_many q upd c) as [c'' r]. simpl in IH.
  destruct (decide (q u)); simpl; [|done].
  unfold Collection.modified. case_decide; lia.
Qed.

Lemma update_many_none c :
  Forall (λ u, ¬ q u) c →
  Collection.update_many q upd c = (c, mkUpdateResult 0 0).
Proof.
  induction 1 as [|u c Hu _ IH]; [done|]. simpl. rewrite IH.
  by destruct (decide (q u)).
Qed.
End collection_facts.

(** ** Reset *)

Lemma reset_collection_fst c :
  (Reset.reset_collection c).1
  = (λ u, if decide (q_in_experiment u)
          then Collection.unset_experiment u else u) <$> c.
Proof. apply update_many_fst. Qed.

Lemma reset_collection_clean c :
  Forall (λ u, ¬ q_in_experiment u) (Reset.reset_collection c).1.
Proof.
  rewrite reset_collection_fst, Forall_fmap. apply Forall_forall.
  intros u _. simpl. by case_decide.
Qed.

Lemma reset_collection_twice c :
  Reset.reset_collection (Reset.reset_collection c).1
  = ((Reset.reset_collection c).1, mkUpdateResult 0 0).
Proof. apply update_many_none, reset_collection_clean. Qed.

Lemma reset_collection_unset c u :
  Forall fields_paired c → u ∈ (Reset.reset_collection c).1 →
  inExperiment u = None ∧ group u = None.
Proof.
  intros Hc. rewrite reset_collection_fst, list_elem_of_fmap.
  intros (v & -> & Hv). rewrite Forall_forall in Hc.
  case_decide as Hq; [done|].
  specialize (Hc v Hv). unfold fields_paired, q_in_experiment in *.
  destruct (inExperiment v) as [b|] eqn:Hie.
  - exfalso. apply Hq, Hc. left. by eexists.
  - destruct (group v) as [s|] eqn:Hg; [|done].
    exfalso. apply Hq, Hc. right. by eexists.
Qed.

(** Every collection of the database is reset at once, so a second pass over
    the database finds nothing left to clear. *)
Lemma reset_database_again cl db_name :
  let s1 := Reset.reset_database cl db_name in
  let s2 := Reset.reset_database s1.1 db_name in
  s2.1 = s1.1 ∧ dom s2.2 = dom s1.2
  ∧ ∀ name r, s2.2 !! name = Some r → r = mkUpdateResult 0 0.
Proof.
  destruct cl as [mc|name c]; simpl.
  - destruct (mc !! db_name) as [db|] eqn:Hdb; simpl.
    + rewrite lookup_insert_eq. simpl. split_and!.
      * f_equal. rewrite insert_insert_eq. f_equal.
        rewrite <- map_fmap_compose. apply map_fmap_ext.
        intros k c _. simpl. by rewrite reset_collection_twice.
      * by rewrite !dom_fmap_L.
      * intros name r. rewrite !lookup_fmap.
        destruct (db !! name) as [c|]; [|done]. simpl.
        rewrite reset_collection_twice. by intros [= <-].
    + rewrite Hdb. simpl. split_and!; [done..|].
      intros name r. by rewrite lookup_empty.
  - destruct (Reset.reset_collection c) as [c' r] eqn:Hr. simpl.
    assert (c' = (Reset.reset_collection c).1) as -> by by rewrite Hr.
    rewrite reset_collection_twice. simpl. split_and!; [done| |].
    + by rewrite !dom_singleton_L.
    + intros name' r'. rewrite lookup_singleton. case_decide; [|done].
      by intros [= <-].
Qed.

Lemma addressed_after_reset cl db_name u :
  addressed (Reset.reset_database cl db_name).1 db_name u →
  ∃ c, (∀ v, v ∈ c → addressed cl db_name v)
       ∧ u ∈ (Reset.reset_collection c).1.
Proof.
  destruct cl as [mc|name c]; simpl.
  - destruct (mc !! db_name) as [db|] eqn:Hdb; simpl.
    + intros (db' & name & c' & Hdb' & Hc' & Hu).
      rewrite lookup_insert_eq in Hdb'. injection Hdb' as <-.
      rewrite lookup_fmap in Hc'.
      destruct (db !! name) as [c|] eqn:Hc; [|done]. injection Hc' as <-.
      exists c. split; [|done]. intros v Hv. by exists db, name, c.
    + intros (db' & name & c' & Hdb' & _). congruence.
  - destruct (Reset.reset_collection c) as [c' r] eqn:Hr. simpl.
    intros Hu. exists c. split; [done|]. by rewrite Hr.
Qed.

(** C3 (as amended). For every store, a second [reset_database] right after
    a first one reports matched = 0 and modified = 0 for every collection
    and leaves the store as the first call left it; after either call no
    addressed document has [inExperiment] true. When every document that
    carries an experiment field has [inExperiment] true, the state
    assignment produces, no addressed document has [inExperiment] or [group]
    set after either call. *)
Theorem reset_twice_clears_marked cl db_name :
  let s1 := Reset.reset_database cl db_name in
  let s2 := Reset.reset_database s1.1 db_name in
  (∀ name r, s2.2 !! name = Some r →
     modified_count r = 0%nat ∧ matched_count r = 0%nat)
  ∧ dom s2.2 = dom s1.2
  ∧ s2.1 = s1.1
  ∧ (∀ u, addressed s1.1 db_name u → inExperiment u ≠ Some true)
  ∧ ((∀ u, addressed cl db_name u → fields_paired u) →
     ∀ u, addressed s1.1 db_name u →
       inExperiment u = None ∧ group u = None).
Proof.
  intros s1 s2.
  destruct (reset_database_again cl db_name) as (Hst & Hdom & Hres).
  split_and!; [|done|done| |].
  - intros name r Hr. by rewrite (Hres name r Hr).
  - intros u (c & _ & Hu)%addressed_after_reset.
    pose proof (reset_collection_clean c) as Hc.
    rewrite Forall_forall in Hc. apply (Hc u Hu).
  - intros Hinv u (c & Hc & Hu)%addressed_after_reset.
    apply (reset_collection_unset c); [|done].
    apply Forall_forall. intros v Hv. apply Hinv, Hc, Hv.
Qed.

Lemma reset_twice_clears_marked_witness :
  (∀ u, addressed (Reset.OfMongoClient store_assigned) "online_course" u →
        fields_paired u)
  ∧ ∀ u,
      addressed
        (Reset.reset_database (Reset.OfMongoClient store_assigned)
           "online_course").1 "online_course" u →
      inExperiment u = None ∧ group u = None.
Proof.
  assert (∀ u, addressed (Reset.OfMongoClient store_assigned)
                 "online_course" u → fields_paired u) as Hinv.
  { intros u (db & name & c & Hdb & Hc & Hu). unfold store_assigned in Hdb.
    apply lookup_singleton_Some in Hdb as [_ <-].
    apply lookup_singleton_Some in Hc as [_ <-].
    intros _. set_unfold in Hu. by destruct Hu as [->|[->|[]]]. }
  split; [exact Hinv|].
  apply (reset_twice_clears_marked
           (Reset.OfMongoClient store_assigned) "online_course"), Hinv.
Defined.

(** C3, as stated, fails where a document has a group label but is not
    marked [inExperiment]: the filter of [reset_database] passes it by, and
    its label survives the reset. *)
Lemma reset_keeps_unmarked_group :
  ¬ ∀ u,
      addressed
        (Reset.reset_database (Reset.OfMongoClient store_unpaired)
           "online_course").1 "online_course" u →
      inExperiment u = None ∧ group u = None.
Proof.
  intros H.
  assert (addressed
            (Reset.reset_database (Reset.OfMongoClient store_unpaired)
               "online_course").1 "online_course"
            (User 1 0 "incomplete" None (Some CONTROL))) as Hu.
  { eexists _, "applicants"%string, _. split_and!; [reflexivity..|].
    apply list_elem_of_here. }
  apply H in Hu as [_ Hg]. discriminate Hg.
Qed.

(** [reset_experiment] inherits the behaviour: called twice in a row, the
    second call returns matched = 0 and modified = 0. *)
Lemma reset_experiment_twice self mc mc' r1 :
  Experiment.reset_experiment self mc = (Reset.OfMongoClient mc', r1) →
  (Experiment.reset_experiment self mc').2 = mkUpdateResult 0 0.
Proof.
  unfold Experiment.reset_experiment.
  destruct (Reset.reset_database (Reset.OfMongoClient mc)
              (Experiment.db_name self)) as [cl1 res1] eqn:H1.
  intros [= -> <-].
  pose proof (reset_database_again (Reset.OfMongoClient mc)
                (Experiment.db_name self)) as H. cbv zeta in H.
  rewrite H1 in H. cbn [fst snd] in H.
  destruct (Reset.reset_database (Reset.OfMongoClient mc')
              (Experiment.db_name self)) as [cl2 res2].
  destruct H as (_ & _ & Hres). cbn [fst snd] in *.
  destruct (res2 !! Experiment.collection_name self) as [r|] eqn:Hr; [|done].
  simpl. by apply Hres in Hr.
Qed.

(** ** Shuffling *)

Section shuffle_facts.
Context {G : Type} `{!Random G} {A : Type}.
Implicit Types (x : list A) (g : G).

Lemma swap_Permutation i j x : swap i j x ≡ₚ x.
Proof.
  unfold swap.
  destruct (x !! i) as [xi|] eqn:Hi; [|done].
  destruct (x !! j) as [xj|] eqn:Hj; [|done].
  by apply Permutation_insert_swap.
Qed.

Lemma shuffle_from_Permutation i x g : (shuffle_from i x g).1 ≡ₚ x.
Proof.
  revert x g. induction i as [|i IH]; intros x g; [done|]. simpl.
  destruct (randbelow g (S (S i))) as [j g'].
  by rewrite IH, swap_Permutation.
Qed.

(** Whatever the generator draws, the shuffled list is a rearrangement
    of the list given. *)
Lemma shuffle_Permutation x g : (shuffle x g).1 ≡ₚ x.
Proof. apply shuffle_from_Permutation. Qed.

Lemma shuffle_length x g : length (shuffle x g).1 = length x.
Proof. by rewrite shuffle_Permutation. Qed.

Lemma shuffle_nil g : shuffle (@nil A) g = ([], g).
Proof. done. Qed.
End shuffle_facts.

(** The shuffle moves elements by position only: it commutes with any
    relabelling of the elements and leaves the generator in the same state. *)
Section shuffle_natural.
Context {G : Type} `{!Random G} {A B : Type} (f : A → B).



End shuffle_natural.

(** ** Assignment for one day *)

Lemma base_set_experiment ie g u : base (Collection.set_experiment ie g u) = base u.
Proof. done. Qed.

Section update_one_facts.
Context (q : user → Prop) `{!∀ u, Decision (q u)} (upd : user → user).
Hypothesis upd_base : ∀ u, base (upd u) = base u.

Lemma update_one_base c :
  base <$> (Collection.update_one q upd c).1 = base <$> c.
Proof.
  induction c as [|u c IH]; [done|]. cbn [Collection.update_one].
  destruct (decide (q u)); cbn [fst]; [by rewrite !fmap_cons, upd_base|].
  destruct (Collection.update_one q upd c) as [c'' r]. cbn [fst] in *.
  by rewrite !fmap_cons, IH.
Qed.

Lemma update_one_matched c :
  Exists q c → matched_count (Collection.update_one q upd c).2 = 1%nat.
Proof.
  induction 1 as [u c Hu|u c _ IH]; simpl.
  - by rewrite decide_True.
  - destruct (decide (q u)); [done|].
    by destruct (Collection.update_one q upd c) as [c'' r].
Qed.
End update_one_facts.

Lemma q_created_incomplete_base s e u v :
  base u = base v → q_created_incomplete s e u ↔ q_created_incomplete s e v.
Proof. unfold base, q_created_incomplete. intros [= _ -> ->]. done. Qed.

(** The day's cohort depends on creation time and quiz status only. *)
Lemma find_cohort_base s e c c' :
  base <$> c = base <$> c' →
  base <$> Collection.find (q_created_incomplete s e) c
  = base <$> Collection.find (q_created_incomplete s e) c'.
Proof.
  unfold Collection.find. revert c'.
  induction c as [|u c IH]; intros [|v c'] Heq; try done.
  rewrite !fmap_cons in Heq. injection Heq as Hi Ht Hz Hrest.
  assert (base u = base v) as Hb by (unfold base; congruence).
  pose proof (q_created_incomplete_base s e u v Hb) as Hq.
  rewrite !filter_cons.
  destruct (decide (q_created_incomplete s e u)) as [Hu|Hu];
    destruct (decide (q_created_incomplete s e v)) as [Hv|Hv];
    [rewrite !fmap_cons; f_equal; auto|tauto|tauto|auto].
Qed.

Section update_all_facts.

Lemma update_all_snoc us u c :
  Experiment.update_all (us ++ [u]) c
  = let '(c1, matched, modified) := Experiment.update_all us c in
    let '(c2, r) :=
      Collection.update_one (q_id (_id u))
        (Collection.set_experiment (inExperiment u) (group u)) c1 in
    (c2, (matched + matched_count r)%nat, (modified + modified_count r)%nat).
Proof.
  unfold Experiment.update_all. rewrite foldl_app. cbn [foldl].
  by destruct (foldl _ _ us) as [[c1 m] md].
Qed.

Lemma update_all_base us c :
  base <$> (Experiment.update_all us c).1.1 = base <$> c.
Proof.
  induction us as [|u us IH] using rev_ind; [done|].
  rewrite update_all_snoc.
  destruct (Experiment.update_all us c) as [[c1 m] md]. simpl in IH.
  pose proof (update_one_base (q_id (_id u))
    (Collection.set_experiment (inExperiment u) (group u))
    (base_set_experiment _ _) c1) as H1.
  destruct (Collection.update_one _ _ c1) as [c2 r]. simpl in *.
  by rewrite H1.
Qed.

(** Every user whose [_id] is stored is matched by its update. *)
Lemma update_all_matched us c :
  Forall (λ u, _id u ∈ _id <$> c) us →
  (Experiment.update_all us c).1.2 = length us.
Proof.
  induction us as [|u us IH] using rev_ind; [done|].
  rewrite Forall_app, Forall_singleton. intros [Hus Hu].
  rewrite update_all_snoc, length_app. simpl.
  pose proof (update_all_base us c) as Hb.
  destruct (Experiment.update_all us c) as [[c1 m] md]. simpl in *.
  rewrite (IH Hus).
  assert (Exists (q_id (_id u)) c1) as Hex.
  { assert (_id <$> c1 = _id <$> c) as Hid.
    { change _id with (fst ∘ fst ∘ base).
      by rewrite !(list_fmap_compose base), Hb. }
    rewrite <- Hid in Hu. apply list_elem_of_fmap in Hu as (v & Hv & Hin).
    apply Exists_exists. by exists v. }
  pose proof (update_one_matched (q_id (_id u))
    (Collection.set_experiment (inExperiment u) (group u)) c1 Hex) as H1.
  destruct (Collection.update_one _ _ c1) as [c2 r]. simpl in *.
  by rewrite H1.
Qed.
End update_all_facts.

(** Floor and ceiling of a half. *)
Lemma halves (n : nat) :
  ((n / 2) `min` n = n / 2
   ∧ n - n / 2 = (n + 1) / 2
   ∧ n / 2 + (n + 1) / 2 = n
   ∧ ((n + 1) / 2 = n / 2 ∨ (n + 1) / 2 = n / 2 + 1))%nat.
Proof.
  pose proof (Nat.div_mod_eq n 2). pose proof (Nat.div_mod_eq (n + 1) 2).
  pose proof (Nat.mod_upper_bound n 2). 
  pose proof (Nat.mod_upper_bound (n + 1) 2). lia.
Qed.

Section assign_facts.
Context {G : Type} `{!Random G}.
Implicit Types (c : list user) (g : G).

Lemma assign_unfold date c g :
  Experiment._assign_groups_for_date date c g
  = let users := (shuffle (cohort date c) g).1 in
    let midpoint := (length users / 2)%nat in
    let upd := Experiment.update_all (labelled date c g) c in
    (upd.1.1, (shuffle (cohort date c) g).2,
     <[ "n"%string := upd.1.2 ]>
       (<[ "n_modified"%string := upd.2 ]>
          (<[ "control_size"%string := length (take midpoint users) ]>
             {[ "treatment_size"%string := length (drop midpoint users) ]}))).
Proof.
  unfold Experiment._assign_groups_for_date, labelled, cohort.
  destruct (shuffle _ g) as [users g']. cbn [fst snd]. cbv zeta.
  destruct (Experiment.update_all _ c) as [[c' m] md]. cbn [fst snd].
  by rewrite !length_fmap.
Qed.

Lemma labelled_length date c g :
  length (labelled date c g) = length (cohort date c).
Proof.
  unfold labelled. cbv zeta.
  rewrite length_app, !length_fmap, length_take, length_drop, shuffle_length.
  lia.
Qed.

Lemma labelled_base date c g :
  base <$> labelled date c g ≡ₚ base <$> cohort date c.
Proof.
  unfold labelled. cbv zeta. rewrite fmap_app, <- !list_fmap_compose.
  rewrite <- fmap_app, take_drop. by rewrite shuffle_Permutation.
Qed.

Lemma labelled_stored date c g :
  Forall (λ u, _id u ∈ _id <$> c) (labelled date c g).
Proof.
  apply Forall_forall. intros u Hu.
  assert (base u ∈ base <$> cohort date c) as Hb.
  { rewrite <- labelled_base. by apply list_elem_of_fmap_2. }
  apply list_elem_of_fmap in Hb as (v & Hv & Hin).
  apply list_elem_of_filter in Hin as [_ Hin].
  apply list_elem_of_fmap. exists v. split; [|done].
  unfold base in Hv. congruence.
Qed.
End assign_facts.

(** The dictionary a pass returns. *)
Lemma assign_result {G : Type} `{!Random G} (date : Z) (c : list user) (g : G) :
  let n := length (cohort date c) in
  (Experiment._assign_groups_for_date date c g).2
  = <[ "n"%string := n ]>
      (<[ "n_modified"%string := (Experiment.update_all (labelled date c g) c).2 ]>
         (<[ "control_size"%string := (n / 2)%nat ]>
            {[ "treatment_size"%string := ((n + 1) / 2)%nat ]})).
Proof.
  intros n. rewrite assign_unfold. cbv zeta. cbn [fst snd].
  rewrite length_take, length_drop, shuffle_length. fold n.
  rewrite (update_all_matched _ _ (labelled_stored date c g)), labelled_length.
  fold n. destruct (halves n) as (Hmin & Hceil & _). by rewrite Hmin, Hceil.
Qed.

(** C1. The day's cohort of [n] eligible records is split into a control
    half of floor(n/2) and a treatment half of ceil(n/2) records; the sizes
    add up to [n] and differ by 0 or 1; every record of the cohort is
    matched by its update; an empty cohort gives empty halves, no
    modification and an unchanged collection. The function is total: no
    cohort makes it fail. *)
Theorem assign_for_day_halves {G : Type} `{!Random G}
    (date : Z) (c : list user) (g : G) :
  let n := length (cohort date c) in
  let out := Experiment._assign_groups_for_date date c g in
  out.2 !! "control_size"%string = Some (n / 2)%nat
  ∧ out.2 !! "treatment_size"%string = Some ((n + 1) / 2)%nat
  ∧ (n / 2 + (n + 1) / 2 = n)%nat
  ∧ ((n + 1) / 2 = n / 2 ∨ (n + 1) / 2 = n / 2 + 1)%nat
  ∧ out.2 !! "n"%string = Some n
  ∧ (n = 0%nat →
     out.2 !! "control_size"%string = Some 0%nat
     ∧ out.2 !! "treatment_size"%string = Some 0%nat
     ∧ out.2 !! "n_modified"%string = Some 0%nat
     ∧ out.1.1 = c).
Proof.
  intros n out. subst out. rewrite assign_result. fold n.
  destruct (halves n) as (_ & _ & Hsum & Hdiff).
  split_and!; [done..|].
  intros Hn. split_and!; [by rewrite Hn..| |].
  - apply length_zero_iff_nil in Hn.
    unfold labelled. by rewrite Hn, shuffle_nil.
  - rewrite assign_unfold. cbv zeta. cbn [fst].
    apply length_zero_iff_nil in Hn.
    unfold labelled. by rewrite Hn, shuffle_nil.
Qed.

(** Six eligible applicants among ten: three go to each group, and the
    four who completed the quiz are left out. *)
Example ten_applicants_split :
  (Experiment._assign_groups_for_date 0 ten_applicants (seed 42 : Z)).2
  = <[ "n"%string := 6%nat ]>
      (<[ "n_modified"%string := 6%nat ]>
         (<[ "control_size"%string := 3%nat ]>
            {[ "treatment_size"%string := 3%nat ]})).
Proof. vm_compute. reflexivity. Qed.

Example ten_applicants_groups :
  (λ u, (_id u, group u))
    <$> (Experiment._assign_groups_for_date 0 ten_applicants (seed 42 : Z)).1.1
  = [(1, Some TREATMENT); (2, None); (3, Some CONTROL); (4, None);
     (5, Some CONTROL); (6, None); (7, Some TREATMENT); (8, None);
     (9, Some CONTROL); (10, Some TREATMENT)]%nat.
Proof. vm_compute. reflexivity. Qed.

(** ** Statistics *)

Lemma guarded_truediv (completed total : nat) :
  (if decide (0 < total)%nat then truediv completed total else Ok 0%Qc)
  = Ok (rate_of completed total).
Proof.
  unfold truediv, rate_of.
  destruct (decide (0 < total)%nat), (decide (total = 0%nat)); done || lia.
Qed.

(** The statistics never raise: each division sits behind its guard. *)
Lemma calculate_stats_ok (c : list user) :
  let count q `{!∀ u, Decision (q u)} := Collection.count_documents q c in
  let control_rate :=
    rate_of (count (q_group_complete CONTROL)) (count (q_group CONTROL)) in
  let treatment_rate :=
    rate_of (count (q_group_complete TREATMENT)) (count (q_group TREATMENT)) in
  Experiment._calculate_experiment_stats c
  = Ok (mkStats
          (mkGroupStats (count (q_group CONTROL))
             (count (q_group_complete CONTROL)) control_rate)
          (mkGroupStats (count (q_group TREATMENT))
             (count (q_group_complete TREATMENT)) treatment_rate)
          (treatment_rate - control_rate)%Qc).
Proof.
  unfold Experiment._calculate_experiment_stats. cbv zeta.
  by rewrite !guarded_truediv.
Qed.

(** C8. For every collection [stats()] returns a value, never an error:
    each group's rate is completed/total when total > 0 and 0 when
    total = 0, the difference is the treatment rate minus the control rate,
    and [ZeroDivisionError] is not raised. Rates are exact rationals here;
    the rounding of the floating-point quotient is not modelled. *)
Theorem stats_rates_safe (c : list user) :
  ∃ s, Experiment._calculate_experiment_stats c = Ok s
    ∧ Experiment._calculate_experiment_stats c ≠ Raise ZeroDivisionError
    ∧ (∀ grp, grp = control_group s ∨ grp = treatment_group s →
         ((0 < total grp)%nat →
            completion_rate grp
            = (Qc_of_Z (Z.of_nat (completed grp))
               / Qc_of_Z (Z.of_nat (total grp)))%Qc)
         ∧ (total grp = 0%nat → completion_rate grp = 0%Qc))
    ∧ total (control_group s)
      = Collection.count_documents (q_group CONTROL) c
    ∧ completed (control_group s)
      = Collection.count_documents (q_group_complete CONTROL) c
    ∧ total (treatment_group s)
      = Collection.count_documents (q_group TREATMENT) c
    ∧ completed (treatment_group s)
      = Collection.count_documents (q_group_complete TREATMENT) c
    ∧ difference s
      = (completion_rate (treatment_group s)
         - completion_rate (control_group s))%Qc.
Proof.
  eexists. rewrite calculate_stats_ok. cbv zeta.
  split_and!; [reflexivity|done| |done..].
  intros grp [->| ->]; cbn [total completed completion_rate
                             control_group treatment_group];
    unfold rate_of; split; intros Ht; case_decide; done || lia.
Qed.

(** ** The loop over the days *)

Lemma one_day_pos : 0 < one_day.
Proof. done. Qed.

Section run_facts.
Context {G : Type} `{!Random G}.
Implicit Types (c : list user) (g : G) (acc : list (Z * gmap string nat)).

(** Once the current day has reached the end the loop is over, whatever
    fuel is left. *)
Lemma run_days_done fuel a current end_date c g acc :
  end_date ≤ current →
  Experiment.run_days fuel a current end_date c g acc = (c, g, acc).
Proof.
  intros Hle. destruct fuel as [|fuel]; [done|]. simpl.
  by rewrite decide_False by lia.
Qed.

(** [Z.to_nat days] steps are all the loop takes from [end - days]: extra
    fuel changes nothing. *)
Lemma run_days_fuel extra a days_ end_date c g acc :
  Experiment.run_days (Z.to_nat days_ + extra) a
    (end_date - days_ * one_day) end_date c g acc
  = Experiment.run_days (Z.to_nat days_) a
      (end_date - days_ * one_day) end_date c g acc.
Proof.
  pose proof one_day_pos as Hpos.
  remember (Z.to_nat days_) as k eqn:Hk.
  revert days_ Hk c g acc.
  induction k as [|k IH]; intros days_ Hk c g acc.
  - rewrite run_days_done; [done|]. nia.
  - cbn [Nat.add Experiment.run_days].
    destruct (decide (end_date - days_ * one_day < end_date)); [|done].
    replace (end_date - days_ * one_day + one_day)
      with (end_date - (days_ - 1) * one_day) by lia.
    destruct (if a then _ else _) as [[c' g'] res].
    apply IH. lia.
Qed.

(** No day is entered when [days] is not positive. *)
Lemma run_days_nonpositive a days_ start_date end_date c g :
  days_ ≤ 0 →
  Experiment.run_days (Z.to_nat days_) a start_date end_date c g []
  = (c, g, []).
Proof. intros Hd. by replace (Z.to_nat days_) with 0%nat by lia. Qed.

End run_facts.



(** Counting one day with two eligible applicants: the day's dictionary
    holds the count under ["count"], and nothing under ["n"]. *)
Example count_one_day :
  Experiment.run_days 1 false 0 one_day two_applicants (7 : Z) []
  = (two_applicants, 7, [(0, {[ "count"%string := 2%nat ]})]).
Proof. vm_compute. reflexivity. Qed.

(** ** Running the experiment *)

Lemma run_experiment_nonpositive {G : Type} `{!Random G}
    (now days_ : Z) (a : bool) (seed_ : Z) (c : list user) (g : G) :
  days_ ≤ 0 →
  Experiment.run_experiment now days_ a seed_ c g
  = (c, (if a then seed seed_ else g),
     s ← Experiment._calculate_experiment_stats c;
     mret (mkRunResult days_ 0 [] s)).
Proof.
  intros Hd. unfold Experiment.run_experiment. cbv zeta.
  by rewrite run_days_nonpositive.
Qed.

(** C7 (as amended). For every [days <= 0], [run_experiment] raises
    nothing: it returns a normal result with no per-day entry,
    [total_assigned = 0] and the statistics of the collection, which it
    leaves unchanged; with [assignment] the generator is reseeded all the
    same. *)
Theorem run_nonpositive_days_returns {G : Type} `{!Random G}
    (now days_ : Z) (a : bool) (seed_ : Z) (c : list user) (g : G) :
  days_ ≤ 0 →
  ∃ s, Experiment._calculate_experiment_stats c = Ok s
    ∧ Experiment.run_experiment now days_ a seed_ c g
      = (c, (if a then seed seed_ else g), Ok (mkRunResult days_ 0 [] s)).
Proof.
  intros Hd. rewrite (run_experiment_nonpositive _ _ _ _ _ _ Hd).
  pose proof (calculate_stats_ok c) as Hs. cbv zeta in Hs.
  eexists. split; [exact Hs|]. by rewrite Hs.
Qed.

Lemma run_nonpositive_days_returns_witness :
  -3 ≤ 0
  ∧ ∃ s, Experiment._calculate_experiment_stats two_applicants = Ok s
      ∧ Experiment.run_experiment 86400000005 (-3) true 42 two_applicants 7
        = (two_applicants, 42, Ok (mkRunResult (-3) 0 [] s)).
Proof.
  assert (-3 ≤ 0) as Hd by lia.
  split; [exact Hd|].
  exact (run_nonpositive_days_returns 86400000005 (-3) true 42
           two_applicants 7 Hd).
Defined.

(** C7, as stated, fails at [days = 0]: the call returns a result, it does
    not raise. *)
Lemma run_zero_days_no_error :
  ¬ ∃ e, (Experiment.run_experiment 86400000005 0 true 42
            two_applicants (7 : Z)).2 = Raise e.
Proof.
  rewrite run_experiment_nonpositive by lia. cbn [snd].
  pose proof (calculate_stats_ok two_applicants) as Hs. cbv zeta in Hs.
  rewrite Hs. by intros [e He].
Qed.

(** ** Updates by [_id] as a relabelling of the collection *)

Lemma base_ids (c c' : list user) :
  base <$> c = base <$> c' → _id <$> c = _id <$> c'.
Proof.
  intros Hb. change _id with (fst ∘ fst ∘ base).
  by rewrite !(list_fmap_compose base), Hb.
Qed.

Lemma base_relabel_one u v : base (relabel_one u v) = base v.
Proof. unfold relabel_one. by case_decide. Qed.

Lemma base_relabel us v : base (relabel us v) = base v.
Proof.
  induction us as [|u us IH] using rev_ind; [done|].
  unfold relabel in *. rewrite foldl_app. cbn [foldl].
  by rewrite base_relabel_one.
Qed.

Lemma relabel_snoc us u v : relabel (us ++ [u]) v = relabel_one u (relabel us v).
Proof. unfold relabel. by rewrite foldl_app. Qed.


Lemma relabel_one_base u v w :
  base w = base v → _id v = _id u → relabel_one u w = relabel_one u v.
Proof.
  unfold base, relabel_one. intros [= Hi Ht Hq] Hu.
  rewrite !decide_True by congruence.
  unfold Collection.set_experiment. by rewrite Hi, Ht, Hq.
Qed.



(** With unique [_id]s, [update_one] by [_id] touches the one document that
    has it. *)
Lemma update_one_by_id (i : nat) (upd : user → user) (c : list user) :
  NoDup (_id <$> c) →
  (Collection.update_one (q_id i) upd c).1
  = (λ v, if decide (_id v = i) then upd v else v) <$> c.
Proof.
  induction c as [|u c IH]; [done|].
  rewrite fmap_cons, NoDup_cons. intros [Hu Hc].
  cbn [Collection.update_one]. unfold q_id at 1.
  destruct (decide (_id u = i)) as [Hi|Hi]; cbn [fst].
  - rewrite fmap_cons, decide_True by done. f_equal.
    rewrite <- (list_fmap_id c) at 1. apply list_fmap_ext.
    intros k v Hv. rewrite decide_False; [done|].
    intros Hv'. apply Hu, list_elem_of_fmap. exists v.
    split; [congruence|]. by eapply list_elem_of_lookup_2.
  - specialize (IH Hc).
    destruct (Collection.update_one (q_id i) upd c) as [c'' r].
    cbn [fst] in *. by rewrite fmap_cons, decide_False, IH.
Qed.

Lemma update_all_relabel (us c : list user) :
  NoDup (_id <$> c) →
  (Experiment.update_all us c).1.1 = relabel us <$> c.
Proof.
  intros Hc. induction us as [|u us IH] using rev_ind.
  - by rewrite list_fmap_id.
  - rewrite update_all_snoc.
    pose proof (update_all_base us c) as Hb.
    destruct (Experiment.update_all us c) as [[c1 m] md]. cbn [fst] in *.
    assert (NoDup (_id <$> c1)) as Hc1 by by rewrite (base_ids _ _ Hb).
    pose proof (update_one_by_id (_id u)
      (Collection.set_experiment (inExperiment u) (group u)) c1 Hc1) as H1.
    destruct (Collection.update_one _ _ c1) as [c2 r]. cbn [fst] in *.
    rewrite H1, IH, <- list_fmap_compose. apply list_fmap_ext.
    intros k v _. cbn. by rewrite relabel_snoc.
Qed.

(** ** A pass depends on the schema fields and the generator only *)

Section pass_facts.
Context {G : Type} `{!Random G}.
Implicit Types (c : list user) (g : G).




(** One pass, on a collection with unique [_id]s. *)
Lemma assign_relabel date c g :
  NoDup (_id <$> c) →
  (Experiment._assign_groups_for_date date c g).1
  = (relabel (labelled date c g) <$> c, (shuffle (cohort date c) g).2).
Proof.
  intros Hc. rewrite assign_unfold. cbv zeta. cbn [fst].
  by rewrite update_all_relabel.
Qed.

Lemma base_fmap_relabel us c : base <$> (relabel us <$> c) = base <$> c.
Proof.
  rewrite <- list_fmap_compose. apply list_fmap_ext.
  intros k v _. apply base_relabel.
Qed.


Lemma assign_base date c g :
  base <$> (Experiment._assign_groups_for_date date c g).1.1 = base <$> c.
Proof. rewrite assign_unfold. cbv zeta. cbn [fst]. apply update_all_base. Qed.

Lemma run_days_base fuel a current end_date c g acc :
  base <$> (Experiment.run_days fuel a current end_date c g acc).1.1
  = base <$> c.
Proof.
  revert current c g acc.
  induction fuel as [|fuel IH]; intros current c g acc; [done|].
  cbn [Experiment.run_days].
  destruct (decide (current < end_date)); [|done].
  destruct a; [|apply IH].
  pose proof (assign_base current c g) as Hb.
  destruct (Experiment._assign_groups_for_date current c g) as [[c1 g1] r1].
  cbn [fst] in Hb. by rewrite IH.
Qed.

End pass_facts.



(** ** Assigning the same day again *)

Section reassign_facts.
Context {G : Type} `{!Random G}.
Implicit Types (c : list user) (g : G).

Lemma labelled_fields date c g u :
  u ∈ labelled date c g →
  inExperiment u = Some true
  ∧ (group u = Some CONTROL ∨ group u = Some TREATMENT).
Proof.
  unfold labelled. cbv zeta. rewrite elem_of_app, !list_elem_of_fmap.
  intros [(v & -> & _)|(v & -> & _)]; simpl; auto.
Qed.

Lemma labelled_NoDup date c g :
  NoDup (_id <$> c) → NoDup (_id <$> labelled date c g).
Proof.
  intros Hc. change _id with (fst ∘ fst ∘ base).
  rewrite (list_fmap_compose base), labelled_base, <- list_fmap_compose.
  eapply sublist_NoDup; [exact Hc|].
  apply fmap_sublist, sublist_filter.
Qed.

(** A document whose [_id] one user of the list carries, and no other,
    gets that user's experiment fields. *)
Lemma relabel_hit us u w :
  NoDup (_id <$> us) → u ∈ us → _id w = _id u →
  relabel us w = Collection.set_experiment (inExperiment u) (group u) w.
Proof.
  induction us as [|x us IH] using rev_ind; [by intros _ ?%elem_of_nil|].
  rewrite fmap_app, NoDup_app, elem_of_app, list_elem_of_singleton.
  intros (Hus & Hx & _) [Hu| ->] Hw; rewrite relabel_snoc.
  - rewrite IH by done. unfold relabel_one. rewrite decide_False; [done|].
    simpl. intros Hxu. apply (Hx (_id u)).
    + by apply list_elem_of_fmap_2.
    + rewrite <- Hw, Hxu. simpl. apply list_elem_of_here.
  - rewrite (relabel_one_base x w (relabel us w)) by
      (by rewrite ?base_relabel).
    unfold relabel_one. by rewrite decide_True.
Qed.

(** A document no user of the list has the [_id] of is left alone. *)
Lemma relabel_miss us w :
  _id w ∉ _id <$> us → relabel us w = w.
Proof.
  induction us as [|x us IH] using rev_ind; [done|].
  rewrite fmap_app, not_elem_of_app, relabel_snoc. intros [Hus Hx].
  rewrite IH by done. unfold relabel_one. rewrite decide_False; [done|].
  intros Hw. apply Hx. rewrite Hw. simpl. apply list_elem_of_here.
Qed.

Lemma cohort_relabel date us c :
  cohort date (relabel us <$> c) = relabel us <$> cohort date c.
Proof.
  unfold cohort, Collection.find.
  induction c as [|v c IH]; [done|].
  rewrite fmap_cons, !filter_cons, IH.
  pose proof (q_created_incomplete_base date (date + one_day)
                (relabel us v) v (base_relabel us v)) as Hq.
  destruct (decide (q_created_incomplete _ _ (relabel us v)));
    destruct (decide (q_created_incomplete _ _ v)); try tauto; done.
Qed.
End reassign_facts.

Lemma relabel_id us w : _id (relabel us w) = _id w.
Proof. pose proof (base_relabel us w) as Hb. unfold base in Hb. congruence. Qed.

(** C4 (as amended). A second pass over a date, with no reset in between,
    does not skip the records the first pass marked: it selects the same
    cohort again, although every record of it is by then marked
    [inExperiment] with a group, matches all [n] of them, splits them
    floor(n/2) to ceil(n/2) once more, and gives each the label of the half
    the new shuffle puts it in, whatever label it had. *)
Theorem reassignment_relabels {G : Type} `{!Random G}
    (date : Z) (c : list user) (g g' : G) :
  NoDup (_id <$> c) →
  let c1 := (Experiment._assign_groups_for_date date c g).1.1 in
  let p2 := Experiment._assign_groups_for_date date c1 g' in
  let n := length (cohort date c) in
  (∀ u, u ∈ cohort date c1 →
     inExperiment u = Some true
     ∧ (group u = Some CONTROL ∨ group u = Some TREATMENT))
  ∧ base <$> cohort date c1 = base <$> cohort date c
  ∧ p2.2 !! "n"%string = Some n
  ∧ p2.2 !! "control_size"%string = Some (n / 2)%nat
  ∧ p2.2 !! "treatment_size"%string = Some ((n + 1) / 2)%nat
  ∧ (∀ u v, u ∈ labelled date c1 g' → v ∈ p2.1.1 → _id v = _id u →
       inExperiment v = Some true ∧ group v = group u).
Proof.
  intros Hc c1 p2 n.
  assert (c1 = relabel (labelled date c g) <$> c) as Hc1.
  { subst c1. by rewrite assign_relabel. }
  assert (base <$> c1 = base <$> c) as Hb1.
  { rewrite Hc1. apply base_fmap_relabel. }
  assert (NoDup (_id <$> c1)) as Hn1 by by rewrite (base_ids _ _ Hb1).
  assert (base <$> cohort date c1 = base <$> cohort date c) as Hcoh.
  { by apply find_cohort_base. }
  assert (length (cohort date c1) = n) as Hlen.
  { subst n. by rewrite <- (length_fmap base), Hcoh, length_fmap. }
  split_and!.
  - intros u. rewrite Hc1, cohort_relabel, list_elem_of_fmap.
    intros (w & -> & Hw).
    assert (base w ∈ base <$> labelled date c g) as Hx.
    { rewrite labelled_base. by apply list_elem_of_fmap_2. }
    apply list_elem_of_fmap in Hx as (x & Hx & Hin).
    rewrite (relabel_hit _ x w).
    + apply (labelled_fields date c g x Hin).
    + by apply labelled_NoDup.
    + done.
    + unfold base in Hx. congruence.
  - done.
  - subst p2. rewrite assign_result, Hlen. done.
  - subst p2. rewrite assign_result, Hlen. done.
  - subst p2. rewrite assign_result, Hlen. done.
  - intros u v Hu. subst p2. rewrite assign_relabel by done. cbn [fst].
    rewrite list_elem_of_fmap. intros (w & -> & Hw).
    rewrite relabel_id. intros Hid.
    rewrite (relabel_hit _ u w); [|by apply labelled_NoDup|done|done].
    split; [|done]. apply (labelled_fields date c1 g' u Hu).
Qed.

Lemma reassignment_relabels_witness :
  NoDup (_id <$> two_applicants)
  ∧ (Experiment._assign_groups_for_date 0
       (Experiment._assign_groups_for_date 0 two_applicants (1 : Z)).1.1
       (2 : Z)).2 !! "n"%string
    = Some (length (cohort 0 two_applicants)).
Proof.
  assert (NoDup (_id <$> two_applicants)) as Hc.
  { apply (bool_decide_unpack _). vm_compute. exact I. }
  split; [exact Hc|].
  exact (proj1 (proj2 (proj2
           (reassignment_relabels 0 two_applicants 1 2 Hc)))).
Defined.

(** C4, as stated, fails: with two applicants signed up on the same day, a
    second pass over that day selects both again and, the generator now
    drawing the other index, swaps their groups. *)
Lemma reassignment_overwrites_group :
  (Experiment._assign_groups_for_date 0 two_applicants (1 : Z)).1
  = ([User 1 10 "incomplete" (Some true) (Some CONTROL);
      User 2 20 "incomplete" (Some true) (Some TREATMENT)], 2)
  ∧ (Experiment._assign_groups_for_date 0
       [User 1 10 "incomplete" (Some true) (Some CONTROL);
        User 2 20 "incomplete" (Some true) (Some TREATMENT)] (2 : Z)).1.1
    = [User 1 10 "incomplete" (Some true) (Some TREATMENT);
       User 2 20 "incomplete" (Some true) (Some CONTROL)]
  ∧ (Experiment._assign_groups_for_date 0
       [User 1 10 "incomplete" (Some true) (Some CONTROL);
        User 2 20 "incomplete" (Some true) (Some TREATMENT)] (2 : Z)).2
      !! "n"%string = Some 2%nat.
Proof. split_and!; vm_compute; reflexivity. Qed.

(** ** The contingency table *)

Section table_facts.
Import MongoRepository.
Implicit Types (df : list row) (c : list user) (g s : string).

Lemma filter_none {A} (P : A → Prop) `{!∀ x, Decision (P x)} (l : list A) :
  Forall (λ x, ¬ P x) l → filter P l = [].
Proof.
  induction 1 as [|x l Hx _ IH]; [done|].
  by rewrite filter_cons, decide_False.
Qed.

Lemma elem_of_unique l x : x ∈ unique l ↔ x ∈ l.
Proof.
  induction l as [|y l IH]; [done|]. cbn [unique].
  rewrite !elem_of_cons, list_elem_of_filter, IH.
  destruct (decide (x = y)) as [->|Hxy]; [by split; left|].
  split; [intros [?|[_ ?]]|intros [?|?]]; auto.
Qed.

Lemma NoDup_unique l : NoDup (unique l).
Proof.
  induction l as [|y l IH]; [constructor|]. cbn [unique].
  apply NoDup_cons. split; [|by apply NoDup_filter].
  rewrite list_elem_of_filter. by intros [Hy _].
Qed.

Lemma elem_of_labels l x : x ∈ labels l ↔ x ∈ l.
Proof.
  unfold labels. by rewrite merge_sort_Permutation, elem_of_remove_dups.
Qed.

Lemma NoDup_labels l : NoDup (labels l).
Proof.
  unfold labels. rewrite merge_sort_Permutation. apply NoDup_remove_dups.
Qed.

Lemma count_cell_no_group df g s :
  g ∉ r_group <$> df → count_cell df g s = 0%nat.
Proof.
  intros Hg. unfold count_cell. rewrite filter_none; [done|].
  apply Forall_forall. intros r Hr [Hrg _]. apply Hg.
  rewrite <- Hrg. by apply list_elem_of_fmap_2.
Qed.

Lemma count_cell_no_status df g s :
  s ∉ r_admissionsQuiz <$> df → count_cell df g s = 0%nat.
Proof.
  intros Hs. unfold count_cell. rewrite filter_none; [done|].
  apply Forall_forall. intros r Hr [_ Hrs]. apply Hs.
  rewrite <- Hrs. by apply list_elem_of_fmap_2.
Qed.

Lemma count_cell_app df df' g s :
  count_cell (df ++ df') g s = (count_cell df g s + count_cell df' g s)%nat.
Proof. unfold count_cell. by rewrite filter_app, length_app. Qed.

(** A cell of the cross-tabulation is the number of rows of the frame with
    that group and that status. *)
Lemma cell_crosstab df g s : cell (crosstab df) g s = count_cell df g s.
Proof.
  unfold cell, crosstab. cbn [index columns values].
  destruct (list_find (λ x, x = g) (labels (r_group <$> df)))
    as [[i x]|] eqn:Hi.
  - apply list_find_Some in Hi as (Hi & -> & _).
    destruct (list_find (λ x, x = s) (labels (r_admissionsQuiz <$> df)))
      as [[j y]|] eqn:Hj.
    + apply list_find_Some in Hj as (Hj & -> & _).
      rewrite list_lookup_fmap, Hi. cbn.
      by rewrite list_lookup_fmap, Hj.
    + apply list_find_None in Hj. rewrite count_cell_no_status; [done|].
      rewrite <- elem_of_labels. intros Hs.
      rewrite Forall_forall in Hj. by apply (Hj s).
  - apply list_find_None in Hi. rewrite count_cell_no_group; [done|].
    rewrite <- elem_of_labels. intros Hg.
    rewrite Forall_forall in Hi. by apply (Hi g).
Qed.

Lemma to_row_eq u :
  to_row u
  = match inExperiment u, group u with
    | Some ie, Some gu =>
        Some (Row (_id u) (createdAt u) (admissionsQuiz u) ie gu)
    | _, _ => None
    end.
Proof. unfold to_row. by destruct (inExperiment u), (group u). Qed.

Lemma frame_cons u c :
  frame (u :: c)
  = match inExperiment u, group u with
    | Some true, Some gu =>
        Row (_id u) (createdAt u) (admissionsQuiz u) true gu :: frame c
    | _, _ => frame c
    end.
Proof.
  unfold frame, Collection.find. rewrite filter_cons.
  unfold q_in_experiment at 1.
  destruct (decide (inExperiment u = Some true)) as [Hu|Hu].
  - change (omap to_row (u :: ?l))
      with (match to_row u with
            | Some r => r :: omap to_row l
            | None => omap to_row l
            end).
    rewrite to_row_eq, Hu. by destruct (group u).
  - destruct (inExperiment u) as [[]|]; done.
Qed.

(** The rows of the frame, counted by group and status, are the stored
    documents marked [inExperiment], counted by group and status. *)
Lemma count_cell_frame c g s : count_cell (frame c) g s = stored_count c g s.
Proof.
  unfold count_cell, stored_count.
  induction c as [|u c IH]; [done|].
  rewrite frame_cons, (filter_cons (λ u, q_group g u ∧ _)).
  destruct (decide (q_group g u ∧ admissionsQuiz u = s))
    as [[[Hie Hg] Hs]|Hn].
  - rewrite Hie, Hg, filter_cons. cbn [r_group r_admissionsQuiz].
    rewrite decide_True by done. cbn [length]. by rewrite IH.
  - destruct (inExperiment u) as [[]|] eqn:Hie; [|done..].
    destruct (group u) as [gu|] eqn:Hg; [|done].
    rewrite filter_cons. cbn [r_group r_admissionsQuiz].
    rewrite decide_False; [done|]. intros [-> Hs]. by apply Hn.
Qed.
Lemma frame_elem c r :
  r ∈ frame c ↔
  ∃ u, u ∈ c ∧ inExperiment u = Some true
       ∧ ∃ gu, group u = Some gu
               ∧ r = Row (_id u) (createdAt u) (admissionsQuiz u) true gu.
Proof.
  unfold frame, Collection.find. rewrite list_elem_of_omap. split.
  - intros (u & [Hq Hu]%list_elem_of_filter & Hr).
    rewrite to_row_eq in Hr. unfold q_in_experiment in Hq. rewrite Hq in Hr.
    destruct (group u) as [gu|] eqn:Hg; [|done]. injection Hr as <-.
    exists u. split_and!; [done..|]. by exists gu.
  - intros (u & Hu & Hie & gu & Hg & ->). exists u. split.
    + by apply list_elem_of_filter.
    + by rewrite to_row_eq, Hie, Hg.
Qed.

Lemma group_rows_ok df gs :
  Forall (λ g, g ∈ r_group <$> df) gs →
  group_rows df gs
  = Ok (omap (λ g, with_quiz "completed" <$> first_in_group df g) gs)
  ∧ length (omap (λ g, with_quiz "completed" <$> first_in_group df g) gs)
    = length gs.
Proof.
  induction 1 as [|g gs Hg _ [IH IHlen]]; [done|].
  apply list_elem_of_fmap in Hg as (r & -> & Hr).
  assert (r ∈ filter (λ r', r_group r' = r_group r) df) as Hin
    by by apply list_elem_of_filter.
  destruct (filter (λ r', r_group r' = r_group r) df) as [|r1 l] eqn:Hf;
    [by apply elem_of_nil in Hin|].
  assert (first_in_group df (r_group r) = Some r1) as Hfirst.
  { unfold first_in_group. by rewrite Hf. }
  cbn [group_rows]. rewrite IH, Hf.
  change (omap ?f (r_group r :: gs))
    with (match f (r_group r) with
          | Some y => y :: omap f gs
          | None => omap f gs
          end).
  cbv beta. rewrite Hfirst. cbn [fmap option_fmap option_map length].
  by rewrite IHlen.
Qed.

Lemma pad_rows_ok missing r0 df new_rows :
  pad_rows missing (r0 :: df) new_rows
  = Ok (new_rows ++ replicate missing (with_quiz "completed" r0)).
Proof.
  revert new_rows. induction missing as [|k IH]; intros new_rows.
  - by rewrite app_nil_r.
  - cbn [pad_rows iloc0]. cbn. rewrite IH. by rewrite <- app_assoc.
Qed.

(** What [get_contingency_table] returns when at least one row survives
    [dropna()]: the cross-tabulation of the frame, with the made-up rows
    appended when no row of the frame has status ["completed"]. *)
Lemma table_of_frame c :
  frame c ≠ [] →
  get_contingency_table c
  = Ok (crosstab
          (if decide ("completed"%string ∈ r_admissionsQuiz <$> frame c)
           then frame c else frame c ++ synthetic (frame c))).
Proof.
  intros Hne. unfold get_contingency_table. fold (frame c).
  assert (∃ r, r ∈ frame c) as [r Hr].
  { destruct (frame c) as [|r l]; [done|]. exists r. apply list_elem_of_here. }
  apply frame_elem in Hr as (u & Hu & Hie & gu & Hgu & _).
  assert (u ∈ Collection.find q_in_experiment c) as Hres
    by by apply list_elem_of_filter.
  rewrite decide_False by (intros Hnil; rewrite Hnil in Hres;
                            by apply elem_of_nil in Hres).
  rewrite decide_False.
  2:{ rewrite Forall_forall. intros Hall. specialize (Hall u Hres).
      congruence. }
  destruct (decide ("completed"%string ∉ unique (r_admissionsQuiz <$> frame c)))
    as [Hno|Hyes].
  - rewrite decide_False by by rewrite <- elem_of_unique.
    destruct (group_rows_ok (frame c) (unique (r_group <$> frame c)))
      as [-> Hlen].
    { apply Forall_forall. intros g. by rewrite elem_of_unique. }
    cbn [mbind result_bind]. rewrite Hlen. unfold synthetic.
    destruct (frame c) as [|r0 df] eqn:Hf; [done|].
    by rewrite pad_rows_ok.
  - rewrite decide_True; [done|].
    rewrite <- elem_of_unique. by apply dec_stable.
Qed.
(** ** Counting the made-up rows *)

Lemma sum_list_with_zero {A} (l : list A) :
  sum_list_with (λ _, 0%nat) l = 0%nat.
Proof. by induction l. Qed.

Lemma sum_list_with_plus {A} (f h : A → nat) (l : list A) :
  sum_list_with (λ x, f x + h x)%nat l
  = (sum_list_with f l + sum_list_with h l)%nat.
Proof. induction l as [|x l IH]; [done|]. cbn [sum_list_with]. lia. Qed.

Lemma sum_list_with_ext {A} (f h : A → nat) (l : list A) :
  (∀ x, x ∈ l → f x = h x) → sum_list_with f l = sum_list_with h l.
Proof.
  induction l as [|x l IH]; [done|]. intros Hfh. cbn [sum_list_with].
  rewrite Hfh, IH; [done| |apply list_elem_of_here].
  intros y Hy. apply Hfh. by apply list_elem_of_further.
Qed.

(** A label occurs once in a list of labels without repetition. *)
Lemma sum_indicator (L : list string) (x : string) :
  NoDup L → x ∈ L →
  sum_list_with (λ g, if decide (x = g) then 1 else 0)%nat L = 1%nat.
Proof.
  induction 1 as [|g L Hg _ IH]; [by intros ?%elem_of_nil|].
  rewrite elem_of_cons. cbn [sum_list_with]. intros [->|Hx].
  - rewrite decide_True by done.
    rewrite (sum_list_with_ext _ (λ _, 0%nat)), sum_list_with_zero; [done|].
    intros y Hy. rewrite decide_False; [done|]. by intros ->.
  - rewrite decide_False by (by intros ->). by rewrite IH.
Qed.

Lemma count_cell_cons r df g s :
  count_cell (r :: df) g s
  = ((if decide (r_admissionsQuiz r = s)
      then if decide (r_group r = g) then 1 else 0 else 0)
     + count_cell df g s)%nat.
Proof.
  unfold count_cell. rewrite filter_cons.
  destruct (decide (r_admissionsQuiz r = s)), (decide (r_group r = g)).
  - by rewrite decide_True.
  - rewrite decide_False; [done|]. by intros [? _].
  - rewrite decide_False; [done|]. by intros [_ ?].
  - rewrite decide_False; [done|]. by intros [_ ?].
Qed.

(** Summed over the row labels, the cells of one column count the rows of
    the frame with that status. *)
Lemma sum_count_cells (L : list string) df s :
  NoDup L → (∀ r, r ∈ df → r_group r ∈ L) →
  sum_list_with (λ g, count_cell df g s) L
  = length (filter (λ r, r_admissionsQuiz r = s) df).
Proof.
  intros HL. induction df as [|r df IH]; intros Hdf.
  - apply sum_list_with_zero.
  - rewrite (sum_list_with_ext _ _ L (λ g _, count_cell_cons r df g s)).
    rewrite sum_list_with_plus, IH, filter_cons.
    2:{ intros r' Hr'. apply Hdf. by apply list_elem_of_further. }
    destruct (decide (r_admissionsQuiz r = s)).
    + rewrite sum_indicator; [done..|]. apply Hdf, list_elem_of_here.
    + by rewrite sum_list_with_zero.
Qed.

Lemma synthetic_length df :
  df ≠ [] →
  length (synthetic df)
  = (length (unique (r_group <$> df)) `max` 3)%nat.
Proof.
  intros Hne. unfold synthetic. destruct df as [|r0 df']; [done|].
  destruct (group_rows_ok (r0 :: df') (unique (r_group <$> r0 :: df')))
    as [_ Hlen].
  { apply Forall_forall. intros g. by rewrite elem_of_unique. }
  rewrite length_app, Hlen, length_replicate. lia.
Qed.

(** Every made-up row is a row of the frame with its status rewritten. *)
Lemma synthetic_copies df r :
  r ∈ synthetic df → ∃ r0, r0 ∈ df ∧ r = with_quiz "completed" r0.
Proof.
  unfold synthetic. destruct df as [|r0 df']; [by intros ?%elem_of_nil|].
  rewrite elem_of_app, list_elem_of_omap.
  intros [(g & _ & Hg)|Hr].
  - unfold first_in_group in Hg.
    destruct (head _) as [r1|] eqn:Hh; [|done]. injection Hg as <-.
    exists r1. split; [|done].
    apply head_Some in Hh as [l Hl].
    assert (r1 ∈ filter (λ r', r_group r' = g) (r0 :: df')) as Hin
      by (rewrite Hl; apply list_elem_of_here).
    by apply list_elem_of_filter in Hin as [_ ?].
  - apply elem_of_replicate in Hr as [-> _].
    exists r0. split; [apply list_elem_of_here|done].
Qed.

Lemma filter_all {A} (P : A → Prop) `{!∀ x, Decision (P x)} (l : list A) :
  Forall P l → filter P l = l.
Proof.
  induction 1 as [|x l Hx _ IH]; [done|].
  by rewrite filter_cons, decide_True, IH.
Qed.

Lemma synthetic_completed df :
  Forall (λ r, r_admissionsQuiz r = "completed"%string) (synthetic df).
Proof.
  apply Forall_forall. intros r (r0 & _ & ->)%synthetic_copies. done.
Qed.

Lemma count_cell_completed df g :
  Forall (λ r, r_admissionsQuiz r = "completed"%string) df →
  count_cell df g "completed" = length (filter (λ r, r_group r = g) df).
Proof.
  unfold count_cell. induction 1 as [|r df Hr _ IH]; [done|].
  rewrite !filter_cons.
  destruct (decide (r_group r = g)).
  - rewrite decide_True by done. cbn [length]. by rewrite IH.
  - rewrite decide_False; [done|]. by intros [? _].
Qed.

Lemma count_cell_synthetic_other df g s :
  s ≠ "completed"%string → count_cell (synthetic df) g s = 0%nat.
Proof.
  intros Hs. apply count_cell_no_status.
  intros (r & -> & Hr)%list_elem_of_fmap. apply Hs.
  pose proof (synthetic_completed df) as Hall.
  rewrite Forall_forall in Hall. by apply Hall.
Qed.

(** A frame none of whose rows has status ["completed"]. *)
Lemma frame_no_completed c :
  (∀ u, u ∈ c → inExperiment u = Some true →
        admissionsQuiz u ≠ "completed"%string) →
  "completed"%string ∉ r_admissionsQuiz <$> frame c.
Proof.
  intros Hc (r & Hs & Hr)%list_elem_of_fmap.
  apply frame_elem in Hr as (u & Hu & Hie & gu & _ & ->).
  by apply (Hc u Hu Hie).
Qed.

Lemma frame_nonempty c u :
  u ∈ c → inExperiment u = Some true → is_Some (group u) → frame c ≠ [].
Proof.
  intros Hu Hie [gu Hg] Hnil.
  assert (Row (_id u) (createdAt u) (admissionsQuiz u) true gu ∈ frame c)
    as Hr.
  { apply frame_elem. exists u. split_and!; [done..|]. by exists gu. }
  rewrite Hnil in Hr. by apply elem_of_nil in Hr.
Qed.
Lemma first_in_group_Some df g :
  g ∈ r_group <$> df →
  ∃ r1, first_in_group df g = Some r1 ∧ r1 ∈ df ∧ r_group r1 = g.
Proof.
  intros (r & -> & Hr)%list_elem_of_fmap. unfold first_in_group.
  assert (r ∈ filter (λ r', r_group r' = r_group r) df) as Hin
    by by apply list_elem_of_filter.
  destruct (filter (λ r', r_group r' = r_group r) df) as [|r1 l] eqn:Hf;
    [by apply elem_of_nil in Hin|].
  exists r1. split; [done|].
  assert (r1 ∈ filter (λ r', r_group r' = r_group r) df) as Hin1
    by (rewrite Hf; apply list_elem_of_here).
  apply list_elem_of_filter in Hin1 as [? ?]. done.
Qed.

(** Among the rows made up for a list of distinct groups, a group has one
    row if it is in the list and none otherwise. *)
Lemma count_group_rows df gs g :
  NoDup gs → Forall (λ g', g' ∈ r_group <$> df) gs →
  length (filter (λ r, r_group r = g)
            (omap (λ g', with_quiz "completed" <$> first_in_group df g') gs))
  = if decide (g ∈ gs) then 1%nat else 0%nat.
Proof.
  induction 1 as [|g' gs Hg' _ IH]; [done|].
  rewrite Forall_cons. intros [Hin Hall].
  destruct (first_in_group_Some df g' Hin) as (r1 & Hfirst & _ & Hr1).
  change (omap ?f (g' :: gs))
    with (match f g' with
          | Some y => y :: omap f gs
          | None => omap f gs
          end).
  cbv beta. rewrite Hfirst. cbn [fmap option_fmap option_map].
  rewrite filter_cons.
  change (r_group (with_quiz "completed" r1)) with (r_group r1).
  rewrite Hr1. destruct (decide (g' = g)) as [->|Hne]; cbn [length];
    rewrite (IH Hall).
  - rewrite decide_False by done.
    by rewrite decide_True by apply list_elem_of_here.
  - destruct (decide (g ∈ gs)) as [Hg|Hg].
    + by rewrite decide_True by by apply list_elem_of_further.
    + rewrite decide_False; [done|].
      rewrite elem_of_cons. by intros [->|?].
Qed.

Lemma filter_replicate {A} (P : A → Prop) `{!∀ x, Decision (P x)}
    (k : nat) (x : A) :
  filter P (replicate k x) = if decide (P x) then replicate k x else [].
Proof.
  induction k as [|k IH]; [by case_decide|].
  cbn [replicate]. rewrite filter_cons, IH. by case_decide.
Qed.

(** The made-up rows of a group: one if the group is present, and the
    padding if it is the group of the first row. *)
Lemma count_synthetic r0 df g :
  length (filter (λ r, r_group r = g) (synthetic (r0 :: df)))
  = ((if decide (g ∈ r_group <$> r0 :: df) then 1 else 0)
     + (if decide (r_group r0 = g)
        then 3 - length (unique (r_group <$> r0 :: df)) else 0))%nat.
Proof.
  unfold synthetic. rewrite filter_app, length_app, count_group_rows.
  - rewrite filter_replicate.
    change (r_group (with_quiz "completed" r0)) with (r_group r0). f_equal.
    + destruct (decide (g ∈ unique (r_group <$> r0 :: df))) as [Hg|Hg];
        rewrite elem_of_unique in Hg.
      * by rewrite decide_True.
      * by rewrite decide_False.
    + case_decide; [by rewrite length_replicate|done].
  - apply NoDup_unique.
  - apply Forall_forall. intros g'. by rewrite elem_of_unique.
Qed.
End table_facts.

Lemma table_degenerate (c : list user) (u0 : user) :
  u0 ∈ c → inExperiment u0 = Some true → is_Some (group u0) →
  (∀ u, u ∈ c → inExperiment u = Some true →
        admissionsQuiz u ≠ "completed"%string) →
  MongoRepository.get_contingency_table c
  = Ok (MongoRepository.crosstab (frame c ++ synthetic (frame c))).
Proof.
  intros Hu0 Hie Hg Hc.
  rewrite table_of_frame by by eapply frame_nonempty.
  by rewrite decide_False by by apply frame_no_completed.
Qed.

(** C5 (as amended). When no record marked [inExperiment] has the status
    ["completed"] and at least one record is assigned, the table
    construction signals nothing and returns a table that counts made-up
    rows by a fixed rule: outside the ["completed"] column a cell is the
    number of stored records; in that column, where no record is stored,
    each group that is present counts 1, and the group of the first record
    counts 3 minus the number of groups more when fewer than 3 groups are
    present. *)
Theorem degenerate_table_fabricates (c : list user) (u0 : user) :
  u0 ∈ c → inExperiment u0 = Some true → is_Some (group u0) →
  (∀ u, u ∈ c → inExperiment u = Some true →
        admissionsQuiz u ≠ "completed"%string) →
  ∃ t r0 df,
    frame c = r0 :: df
    ∧ MongoRepository.get_contingency_table c = Ok t
    ∧ (∀ g, stored_count c g "completed" = 0%nat)
    ∧ ∀ g s,
        MongoRepository.cell t g s
        = (stored_count c g s
           + (if decide (s = "completed"%string)
              then (if decide (g ∈ MongoRepository.r_group <$> frame c)
                    then 1 else 0)
                   + (if decide (MongoRepository.r_group r0 = g)
                      then 3 - length (MongoRepository.unique
                                         (MongoRepository.r_group <$> frame c))
                      else 0)
              else 0))%nat.
Proof.
  intros Hu0 Hie Hg Hc.
  pose proof (frame_nonempty c u0 Hu0 Hie Hg) as Hne.
  pose proof (frame_no_completed c Hc) as Hno.
  rewrite (table_degenerate c u0) by done.
  destruct (frame c) as [|r0 df] eqn:Hf; [done|]. rewrite <- Hf in *.
  eexists _, r0, df. split_and!; [done|done| |].
  - intros g. rewrite <- count_cell_frame. by apply count_cell_no_status.
  - intros g s.
    rewrite cell_crosstab, count_cell_app, count_cell_frame. f_equal.
    destruct (decide (s = "completed"%string)) as [->|Hs].
    + pose proof (count_synthetic r0 df g) as Hcs. rewrite <- Hf in Hcs.
      by rewrite <- Hcs, count_cell_completed by apply synthetic_completed.
    + by apply count_cell_synthetic_other.
Qed.

Lemma degenerate_table_fabricates_witness :
  ∃ t r0 df,
    frame two_assigned = r0 :: df
    ∧ MongoRepository.get_contingency_table two_assigned = Ok t
    ∧ (∀ g, stored_count two_assigned g "completed" = 0%nat)
    ∧ ∀ g s,
        MongoRepository.cell t g s
        = (stored_count two_assigned g s
           + (if decide (s = "completed"%string)
              then (if decide (g ∈ MongoRepository.r_group
                                     <$> frame two_assigned)
                    then 1 else 0)
                   + (if decide (MongoRepository.r_group r0 = g)
                      then 3 - length (MongoRepository.unique
                                         (MongoRepository.r_group
                                            <$> frame two_assigned))
                      else 0)
              else 0))%nat.
Proof.
  apply (degenerate_table_fabricates two_assigned
           (User 1 10 "incomplete" (Some true) (Some CONTROL))).
  - apply list_elem_of_here.
  - reflexivity.
  - by eexists.
  - intros u Hu _. unfold two_assigned in Hu.
    apply elem_of_cons in Hu as [->|Hu]; [done|].
    apply elem_of_cons in Hu as [->|Hu]; [done|].
    by apply elem_of_nil in Hu.
Defined.

(** The table for [two_assigned], evaluated: two completed control members
    and one completed treatment member are reported where none is stored. *)
Example two_assigned_table :
  MongoRepository.get_contingency_table two_assigned
  = Ok (MongoRepository.mkCrosstab
          [CONTROL; TREATMENT]
          ["completed"%string; "incomplete"%string]
          [[2%nat; 1%nat]; [1%nat; 1%nat]]).
Proof. vm_compute. reflexivity. Qed.

(** The same two documents stored in the other order: the padding row now
    goes to the treatment group. *)
Example two_assigned_reversed_table :
  MongoRepository.get_contingency_table (reverse two_assigned)
  = Ok (MongoRepository.mkCrosstab
          [CONTROL; TREATMENT]
          ["completed"%string; "incomplete"%string]
          [[1%nat; 1%nat]; [2%nat; 1%nat]]).
Proof. vm_compute. reflexivity. Qed.

Lemma stored_count_reverse c g s :
  stored_count (reverse c) g s = stored_count c g s.
Proof. unfold stored_count. by rewrite reverse_Permutation. Qed.

(** C5, as stated, fails: for one control and one treatment member, neither
    of whom has completed the quiz, the construction raises nothing and
    returns a table with made-up completed members; which group gets the
    third of them depends on the order the documents are stored in, so the
    table is not a smoothing of the stored counts either. *)
Lemma degenerate_table_not_signalled :
  ¬ signalled_or_smoothed two_assigned.
Proof.
  unfold signalled_or_smoothed. rewrite two_assigned_table. intros H.
  specialize (H (reverse two_assigned) _
                (stored_count_reverse two_assigned)
                two_assigned_reversed_table CONTROL "completed"%string).
  vm_compute in H. discriminate H.
Qed.

(** C9. Whenever at least one assigned record exists and the stored quiz
    statuses are the two the assignment and the statistics use,
    ["complete"] and ["incomplete"], the test for ["completed"] finds
    nothing, so the made-up rows are appended on every such call: the table
    has a ["completed"] column, no stored record is behind it, its cells
    add up to the number of made-up rows, which is at least 3 and each of
    which is a copy of a stored row, and the records that did complete the
    quiz are counted in a column ["complete"] of their own. *)
Theorem completed_column_fabricated (c : list user) (u0 : user) :
  u0 ∈ c → inExperiment u0 = Some true → is_Some (group u0) →
  (∀ u, u ∈ c → inExperiment u = Some true →
        admissionsQuiz u = "complete"%string
        ∨ admissionsQuiz u = "incomplete"%string) →
  ∃ t,
    MongoRepository.get_contingency_table c = Ok t
    ∧ "completed"%string ∈ MongoRepository.columns t
    ∧ (∀ g, stored_count c g "completed" = 0%nat)
    ∧ sum_list_with (λ g, MongoRepository.cell t g "completed")
        (MongoRepository.index t)
      = length (synthetic (frame c))
    ∧ (3 ≤ length (synthetic (frame c)))%nat
    ∧ (∀ r, r ∈ synthetic (frame c) →
         ∃ r0, r0 ∈ frame c ∧ r = MongoRepository.with_quiz "completed" r0)
    ∧ (∀ g, MongoRepository.cell t g "complete" = stored_count c g "complete").
Proof.
  intros Hu0 Hie Hg Hst.
  assert (∀ u, u ∈ c → inExperiment u = Some true →
               admissionsQuiz u ≠ "completed"%string) as Hc.
  { intros u Hu Hu'. by destruct (Hst u Hu Hu') as [-> | ->]. }
  pose proof (frame_nonempty c u0 Hu0 Hie Hg) as Hne.
  pose proof (frame_no_completed c Hc) as Hno.
  pose proof (synthetic_length (frame c) Hne) as Hlen.
  rewrite (table_degenerate c u0) by done.
  eexists. split; [reflexivity|].
  set (X := frame c ++ synthetic (frame c)).
  split_and!.
  - cbn [MongoRepository.columns MongoRepository.crosstab].
    apply elem_of_labels. subst X. rewrite fmap_app, elem_of_app. right.
    destruct (synthetic (frame c)) as [|r l] eqn:Hs; [simpl in Hlen; lia|].
    pose proof (synthetic_completed (frame c)) as Hall.
    rewrite Hs in Hall. apply Forall_cons in Hall as [<- _].
    rewrite fmap_cons. apply list_elem_of_here.
  - intros g. rewrite <- count_cell_frame. by apply count_cell_no_status.
  - rewrite (sum_list_with_ext _ (λ g, MongoRepository.count_cell X g "completed"))
      by (intros g _; apply cell_crosstab).
    cbn [MongoRepository.index MongoRepository.crosstab].
    rewrite sum_count_cells.
    + subst X. rewrite filter_app, length_app.
      rewrite filter_none, filter_all; [done|apply synthetic_completed|].
      apply Forall_forall. intros r Hr Hs. apply Hno.
      rewrite <- Hs. by apply list_elem_of_fmap_2.
    + apply NoDup_labels.
    + intros r Hr. apply elem_of_labels. by apply list_elem_of_fmap_2.
  - lia.
  - apply synthetic_copies.
  - intros g. rewrite cell_crosstab. subst X.
    rewrite count_cell_app, count_cell_frame.
    by rewrite count_cell_synthetic_other.
Qed.

Lemma completed_column_fabricated_witness :
  ∃ t,
    MongoRepository.get_contingency_table mixed_assigned = Ok t
    ∧ "completed"%string ∈ MongoRepository.columns t
    ∧ (∀ g, stored_count mixed_assigned g "completed" = 0%nat)
    ∧ sum_list_with (λ g, MongoRepository.cell t g "completed")
        (MongoRepository.index t)
      = length (synthetic (frame mixed_assigned))
    ∧ (3 ≤ length (synthetic (frame mixed_assigned)))%nat
    ∧ (∀ r, r ∈ synthetic (frame mixed_assigned) →
         ∃ r0, r0 ∈ frame mixed_assigned
               ∧ r = MongoRepository.with_quiz "completed" r0)
    ∧ (∀ g, MongoRepository.cell t g "complete"
            = stored_count mixed_assigned g "complete").
Proof.
  apply (completed_column_fabricated mixed_assigned
           (User 1 10 "complete" (Some true) (Some CONTROL))).
  - apply list_elem_of_here.
  - reflexivity.
  - by eexists.
  - intros u Hu _. unfold mixed_assigned in Hu.
    apply elem_of_cons in Hu as [->|Hu]; [by left|].
    apply elem_of_cons in Hu as [->|Hu]; [by right|].
    by apply elem_of_nil in Hu.
Defined.

(** The table for [mixed_assigned], evaluated: three columns, the stored
    ["complete"] record in its own. *)
Example mixed_table :
  MongoRepository.get_contingency_table mixed_assigned
  = Ok (MongoRepository.mkCrosstab
          [CONTROL; TREATMENT]
          ["complete"%string; "completed"%string; "incomplete"%string]
          [[1%nat; 2%nat; 0%nat]; [0%nat; 1%nat; 1%nat]]).
Proof. vm_compute. reflexivity. Qed.

(** * Further properties of the code *)

(** ** Reset: what is counted, what is kept, what is reached *)

Lemma update_many_modified (q : user → Prop) `{!∀ u, Decision (q u)}
    (upd : user → user) (c : list user) :
  (∀ u, q u → upd u ≠ u) →
  modified_count (Collection.update_many q upd c).2
  = matched_count (Collection.update_many q upd c).2.
Proof.
  intros Hupd. induction c as [|u c IH]; [done|].
  cbn [Collection.update_many].
  destruct (Collection.update_many q upd c) as [c'' r]. cbn [snd] in IH.
  destruct (decide (q u)) as [Hu|Hu]; cbn [snd matched_count modified_count];
    [|done].
  unfold Collection.modified. rewrite decide_False by by apply Hupd. lia.
Qed.

Lemma reset_collection_result (c : list user) :
  (Reset.reset_collection c).2
  = mkUpdateResult (Collection.count_documents q_in_experiment c)
                   (Collection.count_documents q_in_experiment c).
Proof.
  unfold Reset.reset_collection.
  pose proof (update_many_matched q_in_experiment
                Collection.unset_experiment c) as Hm.
  pose proof (update_many_modified q_in_experiment
                Collection.unset_experiment c) as Hd.
  destruct (Collection.update_many _ _ c) as [c' [m d]]. cbn [snd] in *.
  cbn [matched_count modified_count] in *. rewrite Hd, Hm; [done|].
  intros u Hu Heq. unfold q_in_experiment in Hu.
  apply (f_equal inExperiment) in Heq. cbn in Heq. congruence.
Qed.

Lemma reset_reports_marked_mongo (mc : mongo_client) (db_name : string) :
  (Reset.reset_database (Reset.OfMongoClient mc) db_name).2
  = (λ c, mkUpdateResult (Collection.count_documents q_in_experiment c)
                         (Collection.count_documents q_in_experiment c))
      <$> default ∅ (mc !! db_name).
Proof.
  cbn [Reset.reset_database]. destruct (mc !! db_name) as [db|]; cbn.
  - apply map_fmap_ext. intros k c' _. cbn. apply reset_collection_result.
  - by rewrite fmap_empty.
Qed.

(** X1. The summary of a reset has one entry per collection of the
    database (or the single entry of the collection [Reset] holds), and in
    each entry matched and modified are both the number of documents of
    that collection marked [inExperiment] true: every matched document is
    modified. *)
Theorem reset_reports_marked (mc : mongo_client) (name db_name : string)
    (c : list user) :
  (Reset.reset_database (Reset.OfMongoClient mc) db_name).2
  = (λ c, mkUpdateResult (Collection.count_documents q_in_experiment c)
                         (Collection.count_documents q_in_experiment c))
      <$> default ∅ (mc !! db_name)
  ∧ (Reset.reset_database (Reset.OfCollection name c) db_name).2
    = {[ name :=
           mkUpdateResult (Collection.count_documents q_in_experiment c)
                          (Collection.count_documents q_in_experiment c) ]}.
Proof.
  split; [apply reset_reports_marked_mongo|].
  - cbn [Reset.reset_database].
    pose proof (reset_collection_result c) as Hr.
    destruct (Reset.reset_collection c) as [c' r]. cbn in *. by rewrite Hr.
Qed.

Lemma reset_collection_lookup (c : list user) (k : nat) (u : user) :
  c !! k = Some u →
  (Reset.reset_collection c).1 !! k
  = Some (if decide (inExperiment u = Some true)
          then Collection.unset_experiment u else u).
Proof.
  intros Hk. rewrite reset_collection_fst, list_lookup_fmap, Hk. cbn.
  unfold q_in_experiment. by destruct (decide (inExperiment u = Some true)).
Qed.

Lemma reset_collection_base (c : list user) :
  base <$> (Reset.reset_collection c).1 = base <$> c.
Proof.
  rewrite reset_collection_fst, <- list_fmap_compose. apply list_fmap_ext.
  intros k u _. cbn. by case_decide.
Qed.

(** X2. A reset deletes nothing: in every collection of the database the
    documents stay in place with their [_id], [createdAt] and
    [admissionsQuiz]; a document not marked [inExperiment] true is left
    exactly as it was, and a marked one loses both experiment fields. *)
Theorem reset_keeps_documents (mc : mongo_client) (db_name name : string)
    (db : gmap string (list user)) (c : list user) :
  mc !! db_name = Some db → db !! name = Some c →
  ∃ db' c',
    store_of (Reset.reset_database (Reset.OfMongoClient mc) db_name).1 mc
      !! db_name = Some db'
    ∧ dom db' = dom db
    ∧ db' !! name = Some c'
    ∧ base <$> c' = base <$> c
    ∧ ∀ k u, c !! k = Some u →
        (inExperiment u ≠ Some true → c' !! k = Some u)
        ∧ (inExperiment u = Some true →
           ∃ u', c' !! k = Some u' ∧ base u' = base u
                 ∧ inExperiment u' = None ∧ group u' = None).
Proof.
  intros Hdb Hc. cbn [Reset.reset_database]. rewrite Hdb. cbn [fst store_of].
  eexists _, _. split_and!.
  - apply lookup_insert_eq.
  - apply dom_fmap_L.
  - rewrite lookup_fmap, Hc. reflexivity.
  - apply reset_collection_base.
  - intros k u Hk. cbn. rewrite (reset_collection_lookup c k u Hk). split.
    + intros Hu. by rewrite decide_False.
    + intros Hu. rewrite decide_True by done. by eexists.
Qed.

Lemma reset_keeps_documents_witness :
  ∃ db' c',
    store_of (Reset.reset_database (Reset.OfMongoClient store_assigned)
                "online_course").1 store_assigned
      !! "online_course"%string = Some db'
    ∧ dom db' = dom ({[ "applicants"%string := two_assigned ]}
                       : gmap string (list user))
    ∧ db' !! "applicants"%string = Some c'
    ∧ base <$> c' = base <$> two_assigned
    ∧ ∀ k u, two_assigned !! k = Some u →
        (inExperiment u ≠ Some true → c' !! k = Some u)
        ∧ (inExperiment u = Some true →
           ∃ u', c' !! k = Some u' ∧ base u' = base u
                 ∧ inExperiment u' = None ∧ group u' = None).
Proof.
  apply (reset_keeps_documents store_assigned "online_course" "applicants").
  - reflexivity.
  - reflexivity.
Defined.

(** X3. A reset reaches the named database only: every other database of
    the client is left as it was, and for a database that does not exist
    the store is unchanged and the summary empty. *)
Theorem reset_reaches_named_database (mc : mongo_client) (db_name : string) :
  let out := Reset.reset_database (Reset.OfMongoClient mc) db_name in
  (∀ other, other ≠ db_name → store_of out.1 mc !! other = mc !! other)
  ∧ (mc !! db_name = None → store_of out.1 mc = mc ∧ out.2 = ∅).
Proof.
  cbn [Reset.reset_database]. destruct (mc !! db_name) as [db|] eqn:Hdb;
    cbn [fst snd store_of]; split.
  - intros other Hne. by rewrite lookup_insert_ne.
  - done.
  - done.
  - done.
Qed.

(** X4. [reset_experiment] returns the entry of the collection named by the
    constructor arguments [db] and [collection]: matched and modified are
    the number of marked documents there, and both are 0 when that database
    or collection does not exist, whatever collection the object works
    on. *)
Theorem reset_experiment_result (self : Experiment.t) (mc : mongo_client) :
  let n :=
    Collection.count_documents q_in_experiment
      (get_collection mc
         (Experiment.db_name self, Experiment.collection_name self)) in
  (Experiment.reset_experiment self mc).2 = mkUpdateResult n n.
Proof.
  intros n. subst n. unfold Experiment.reset_experiment, get_collection.
  pose proof (reset_reports_marked_mongo mc (Experiment.db_name self)) as Hr.
  destruct (Reset.reset_database (Reset.OfMongoClient mc)
              (Experiment.db_name self)) as [cl res].
  cbn [fst snd] in *. subst res. rewrite lookup_fmap.
  destruct (mc !! Experiment.db_name self) as [db|]; cbn.
  - by destruct (db !! Experiment.collection_name self).
  - by rewrite lookup_empty.
Qed.

(** ** Assignment: which documents a pass and a run touch *)

Lemma NoDup_fmap_eq {A B} (f : A → B) (l : list A) (x y : A) :
  NoDup (f <$> l) → x ∈ l → y ∈ l → f x = f y → x = y.
Proof.
  induction l as [|a l IH]; [by intros _ ?%elem_of_nil|].
  rewrite fmap_cons, NoDup_cons, !elem_of_cons.
  intros [Ha Hl] [->|Hx] [->|Hy] Hf; [done| | |by apply IH].
  - exfalso. apply Ha. rewrite Hf. by apply list_elem_of_fmap_2.
  - exfalso. apply Ha. rewrite <- Hf. by apply list_elem_of_fmap_2.
Qed.

(** Adjacent windows of creation time add up and do not overlap. *)
Lemma window_split (a b d : Z) (u : user) :
  a ≤ b ≤ d →
  q_created_incomplete a d u
  ↔ q_created_incomplete a b u ∨ q_created_incomplete b d u.
Proof.
  unfold q_created_incomplete. intros Hab. split.
  - intros [[? ?] Hs]. destruct (decide (createdAt u < b)); [left|right];
      (split; [lia|done]).
  - intros [[[? ?] Hs]|[[? ?] Hs]]; (split; [lia|done]).
Qed.

Lemma window_disjoint (a b d : Z) (u : user) :
  q_created_incomplete a b u → ¬ q_created_incomplete b d u.
Proof. unfold q_created_incomplete. intros [[? ?] _] [[? ?] _]. lia. Qed.

Section pass_pointwise.
Context {G : Type} `{!Random G}.
Implicit Types (c : list user) (g : G).

(** One pass, document by document. *)
Lemma assign_pointwise date c g k v :
  NoDup (_id <$> c) → c !! k = Some v →
  ∃ v', (Experiment._assign_groups_for_date date c g).1.1 !! k = Some v'
    ∧ base v' = base v
    ∧ (q_created_incomplete date (date + one_day) v → assigned v')
    ∧ (¬ q_created_incomplete date (date + one_day) v → v' = v).
Proof.
  intros Hc Hk.
  pose proof (assign_relabel date c g Hc) as Hrel.
  apply (f_equal fst) in Hrel. cbn [fst] in Hrel. rewrite Hrel.
  exists (relabel (labelled date c g) v).
  assert (v ∈ c) as Hv by by eapply list_elem_of_lookup_2.
  split_and!.
  - by rewrite list_lookup_fmap, Hk.
  - apply base_relabel.
  - intros Hq.
    assert (base v ∈ base <$> labelled date c g) as Hx.
    { rewrite labelled_base. apply list_elem_of_fmap_2.
      by apply list_elem_of_filter. }
    apply list_elem_of_fmap in Hx as (x & Hx & Hin).
    rewrite (relabel_hit _ x v); [|by apply labelled_NoDup|done|].
    + apply (labelled_fields date c g x Hin).
    + unfold base in Hx. congruence.
  - intros Hq. apply relabel_miss.
    intros (x & Hx & Hin)%list_elem_of_fmap.
    assert (base x ∈ base <$> cohort date c) as Hw.
    { rewrite <- labelled_base. by apply list_elem_of_fmap_2. }
    apply list_elem_of_fmap in Hw as (w & Hw & Hwin).
    apply list_elem_of_filter in Hwin as [Hwq Hwc].
    assert (w = v) as ->.
    { apply (NoDup_fmap_eq _id c); [done..|].
      unfold base in Hw. congruence. }
    by apply Hq.
Qed.

(** The whole loop, document by document: [fuel] days from [current], all
    of them before [end_date]. *)
Lemma run_days_pointwise fuel current end_date c g acc k v :
  NoDup (_id <$> c) → current + Z.of_nat fuel * one_day ≤ end_date →
  c !! k = Some v →
  ∃ v', (Experiment.run_days fuel true current end_date c g acc).1.1 !! k
        = Some v'
    ∧ base v' = base v
    ∧ (q_created_incomplete current (current + Z.of_nat fuel * one_day) v →
       assigned v')
    ∧ (¬ q_created_incomplete current (current + Z.of_nat fuel * one_day) v →
       v' = v).
Proof.
  pose proof one_day_pos as Hpos.
  revert current c g acc v.
  induction fuel as [|fuel IH]; intros current c g acc v Hc Hle Hk.
  - exists v. split_and!; [done..| |done].
    unfold q_created_incomplete. intros [[? ?] _]. lia.
  - rewrite Nat2Z.inj_succ, Z.mul_succ_l in Hle |- *.
    assert (0 ≤ Z.of_nat fuel * one_day) as Hnn
      by (apply Z.mul_nonneg_nonneg; lia).
    cbn [Experiment.run_days]. rewrite decide_True by lia.
    destruct (assign_pointwise current c g k v Hc Hk)
      as (v1 & Hk1 & Hb1 & Hin1 & Hout1).
    pose proof (assign_base current c g) as Hb.
    destruct (Experiment._assign_groups_for_date current c g)
      as [[c1 g1] r1]. cbn [fst] in *.
    destruct (IH (current + one_day) c1 g1 (acc ++ [(current, r1)]) v1)
      as (v' & Hk' & Hb' & Hin' & Hout'); [|lia|done|].
    { by rewrite (base_ids _ _ Hb). }
    replace (current + (Z.of_nat fuel * one_day + one_day))
      with (current + one_day + Z.of_nat fuel * one_day) by lia.
    rewrite (q_created_incomplete_base _ _ v1 v Hb1) in Hin', Hout'.
    pose proof (window_split current (current + one_day)
                  (current + one_day + Z.of_nat fuel * one_day) v) as Hsplit.
    pose proof (window_disjoint current (current + one_day)
                  (current + one_day + Z.of_nat fuel * one_day) v) as Hdis.
    exists v'. split_and!; [done|congruence| |].
    + intros [Hq1|Hq2]%Hsplit; [|by apply Hin'|lia].
      rewrite Hout' by by apply Hdis. by apply Hin1.
    + intros Hq. rewrite Hout', Hout1; [done| |].
      * intros Hq1. apply Hq, Hsplit; [lia|by left].
      * intros Hq2. apply Hq, Hsplit; [lia|by right].
Qed.
End pass_pointwise.

Section run_pointwise.
Context {G : Type} `{!Random G}.
Implicit Types (c : list user) (g : G).

Lemma run_experiment_store now days_ a seed_ c g :
  (Experiment.run_experiment now days_ a seed_ c g).1.1
  = (Experiment.run_days (Z.to_nat days_) a
       (now - now `mod` one_day - days_ * one_day)
       (now - now `mod` one_day) c (if a then seed seed_ else g) []).1.1.
Proof.
  unfold Experiment.run_experiment. cbv zeta.
  by destruct (Experiment.run_days _ _ _ _ _ _ _) as [[c1 g1] d1].
Qed.

Lemma run_experiment_pointwise now days_ seed_ c g k v :
  NoDup (_id <$> c) → c !! k = Some v →
  let end_date := now - now `mod` one_day in
  let start_date := end_date - days_ * one_day in
  ∃ v', (Experiment.run_experiment now days_ true seed_ c g).1.1 !! k
        = Some v'
    ∧ base v' = base v
    ∧ (q_created_incomplete start_date end_date v → assigned v')
    ∧ (¬ q_created_incomplete start_date end_date v → v' = v).
Proof.
  intros Hc Hk end_date start_date. pose proof one_day_pos as Hpos.
  rewrite run_experiment_store. fold end_date. fold start_date.
  destruct (decide (days_ ≤ 0)) as [Hd|Hd].
  - replace (Z.to_nat days_) with 0%nat by lia. exists v.
    split_and!; [done..| |done].
    unfold q_created_incomplete. intros [[? ?] _]. subst start_date. nia.
  - destruct (run_days_pointwise (Z.to_nat days_) start_date end_date c
                (seed seed_) [] k v Hc) as (v' & Hk' & Hb & Hin & Hout);
      [subst start_date; lia|done|].
    replace (start_date + Z.of_nat (Z.to_nat days_) * one_day)
      with end_date in * by (subst start_date; lia).
    by exists v'.
Qed.

Lemma lookup_same_length {A B} (l : list A) (l' : list B) (k : nat) (y : B) :
  length l = length l' → l' !! k = Some y → ∃ x, l !! k = Some x.
Proof.
  intros Hlen Hk. apply lookup_lt_is_Some. rewrite Hlen.
  by eapply lookup_lt_Some.
Qed.

Lemma run_experiment_length now days_ a seed_ c g :
  length (Experiment.run_experiment now days_ a seed_ c g).1.1 = length c.
Proof.
  rewrite run_experiment_store, <- (length_fmap base), run_days_base.
  apply length_fmap.
Qed.
End run_pointwise.

(** X5. On a collection with unique [_id]s a pass over a day marks every
    record of that day's cohort [inExperiment] with one of the two group
    labels and leaves every other document exactly as it was; no document
    moves, and none has its [_id], [createdAt] or [admissionsQuiz]
    changed. *)
Theorem assign_touches_cohort_only {G : Type} `{!Random G}
    (date : Z) (c : list user) (g : G) (k : nat) (v : user) :
  NoDup (_id <$> c) → c !! k = Some v →
  ∃ v', (Experiment._assign_groups_for_date date c g).1.1 !! k = Some v'
    ∧ base v' = base v
    ∧ (v ∈ cohort date c → assigned v')
    ∧ (v ∉ cohort date c → v' = v).
Proof.
  intros Hc Hk.
  destruct (assign_pointwise date c g k v Hc Hk)
    as (v' & Hk' & Hb & Hin & Hout).
  assert (v ∈ c) as Hv by by eapply list_elem_of_lookup_2.
  exists v'. split_and!; [done..| |].
  - intros [Hq _]%list_elem_of_filter. by apply Hin.
  - intros Hq. apply Hout. intros Hq'. apply Hq.
    by apply list_elem_of_filter.
Qed.

Lemma assign_touches_cohort_only_witness :
  NoDup (_id <$> ten_applicants)
  ∧ ten_applicants !! 1%nat = Some (User 2 20 "complete" None None)
  ∧ ∃ v', (Experiment._assign_groups_for_date 0 ten_applicants
             (seed 42 : Z)).1.1 !! 1%nat = Some v'
      ∧ base v' = base (User 2 20 "complete" None None)
      ∧ (User 2 20 "complete" None None ∈ cohort 0 ten_applicants →
         assigned v')
      ∧ (User 2 20 "complete" None None ∉ cohort 0 ten_applicants →
         v' = User 2 20 "complete" None None).
Proof.
  assert (NoDup (_id <$> ten_applicants)) as Hc.
  { apply (bool_decide_unpack _). vm_compute. exact I. }
  split_and!; [exact Hc|reflexivity|].
  exact (assign_touches_cohort_only 0 ten_applicants (seed 42 : Z) 1
           (User 2 20 "complete" None None) Hc eq_refl).
Defined.

(** X6. On a collection with unique [_id]s, after [run_experiment] with
    assignment a document created in the window from [days] days before
    today's midnight up to that midnight, with quiz status incomplete, is
    marked with one of the two group labels; every other document is
    exactly as before the run, and no document moves or has a schema field
    changed. For [days <= 0] the window is empty. *)
Theorem run_marks_window {G : Type} `{!Random G}
    (now days_ seed_ : Z) (c : list user) (g : G) (k : nat) (v : user) :
  NoDup (_id <$> c) → c !! k = Some v →
  let end_date := now - now `mod` one_day in
  let start_date := end_date - days_ * one_day in
  ∃ v', (Experiment.run_experiment now days_ true seed_ c g).1.1 !! k
        = Some v'
    ∧ base v' = base v
    ∧ (q_created_incomplete start_date end_date v → assigned v')
    ∧ (¬ q_created_incomplete start_date end_date v → v' = v)
    ∧ (days_ ≤ 0 → v' = v).
Proof.
  intros Hc Hk end_date start_date.
  destruct (run_experiment_pointwise now days_ seed_ c g k v Hc Hk)
    as (v' & Hk' & Hb & Hin & Hout).
  exists v'. split_and!; [done..|].
  intros Hd. apply Hout. pose proof one_day_pos.
  unfold q_created_incomplete. intros [[? ?] _].
  subst start_date end_date. nia.
Qed.

Lemma run_marks_window_witness :
  NoDup (_id <$> ten_applicants)
  ∧ ten_applicants !! 0%nat = Some (User 1 10 "incomplete" None None)
  ∧ ∃ v', (Experiment.run_experiment 86400000005 1 true 42 ten_applicants
             (7 : Z)).1.1 !! 0%nat = Some v'
      ∧ base v' = base (User 1 10 "incomplete" None None)
      ∧ (q_created_incomplete 0 86400000000
           (User 1 10 "incomplete" None None) → assigned v')
      ∧ (¬ q_created_incomplete 0 86400000000
             (User 1 10 "incomplete" None None) →
         v' = User 1 10 "incomplete" None None)
      ∧ (1 ≤ 0 → v' = User 1 10 "incomplete" None None).
Proof.
  assert (NoDup (_id <$> ten_applicants)) as Hc.
  { apply (bool_decide_unpack _). vm_compute. exact I. }
  split_and!; [exact Hc|reflexivity|].
  exact (run_marks_window 86400000005 1 42 ten_applicants (7 : Z) 0
           (User 1 10 "incomplete" None None) Hc eq_refl).
Defined.

(** ** The stored groups after a pass *)

Lemma set_experiment_same_base (u w : user) :
  base w = base u →
  Collection.set_experiment (inExperiment u) (group u) w = u.
Proof.
  destruct u, w. unfold base, Collection.set_experiment. cbn.
  by intros [= -> -> ->].
Qed.

Section stored_groups.
Context {G : Type} `{!Random G}.
Implicit Types (c : list user) (g : G).

(** After a pass the stored cohort is the list [all_users] of the pass, up
    to order. *)
Lemma cohort_after_pass date c g :
  NoDup (_id <$> c) →
  cohort date (Experiment._assign_groups_for_date date c g).1.1
  ≡ₚ labelled date c g.
Proof.
  intros Hc. rewrite assign_relabel by done. cbn [fst].
  rewrite cohort_relabel.
  pose proof (labelled_NoDup date c g Hc) as Hus.
  assert (NoDup (_id <$> cohort date c)) as Hco.
  { eapply sublist_NoDup; [exact Hc|]. apply fmap_sublist, sublist_filter. }
  apply NoDup_Permutation.
  - apply (NoDup_fmap_1 _id). rewrite <- list_fmap_compose.
    rewrite (list_fmap_ext (_id ∘ relabel (labelled date c g)) _id
               (cohort date c)); [done|].
    intros k w _. apply relabel_id.
  - by apply (NoDup_fmap_1 _id).
  - intros x. rewrite list_elem_of_fmap. split.
    + intros (w & -> & Hw).
      assert (base w ∈ base <$> labelled date c g) as Hx.
      { rewrite labelled_base. by apply list_elem_of_fmap_2. }
      apply list_elem_of_fmap in Hx as (x & Hx & Hin).
      rewrite (relabel_hit _ x w); [|done..|unfold base in Hx; congruence].
      by rewrite set_experiment_same_base.
    + intros Hx.
      assert (base x ∈ base <$> cohort date c) as Hw.
      { rewrite <- labelled_base. by apply list_elem_of_fmap_2. }
      apply list_elem_of_fmap in Hw as (w & Hw & Hin).
      exists w. split; [|done].
      rewrite (relabel_hit _ x w); [|done..|unfold base in Hw; congruence].
      by rewrite set_experiment_same_base.
Qed.

Lemma labelled_count date c g :
  let n := length (cohort date c) in
  length (filter (λ u, group u = Some CONTROL) (labelled date c g))
  = (n / 2)%nat
  ∧ length (filter (λ u, group u = Some TREATMENT) (labelled date c g))
    = ((n + 1) / 2)%nat.
Proof.
  intros n. unfold labelled. cbv zeta.
  rewrite !filter_app, !length_app.
  set (users := (shuffle (cohort date c) g).1).
  assert (length users = n) as Hn by apply shuffle_length.
  destruct (halves n) as (Hmin & Hceil & _).
  rewrite (filter_all (λ u, group u = Some CONTROL)
             (_ <$> take _ users)),
          (filter_none (λ u, group u = Some CONTROL)
             (_ <$> drop _ users)),
          (filter_none (λ u, group u = Some TREATMENT)
             (_ <$> take _ users)),
          (filter_all (λ u, group u = Some TREATMENT)
             (_ <$> drop _ users)).
  - rewrite !length_fmap, length_take, length_drop, Hn. cbn [length]. lia.
  - apply Forall_fmap, Forall_forall. by intros.
  - apply Forall_fmap, Forall_forall. by intros.
  - apply Forall_fmap, Forall_forall. by intros.
  - apply Forall_fmap, Forall_forall. by intros.
Qed.
End stored_groups.

(** X7. On a collection with unique [_id]s, after a pass over a day the
    stored records of that day's cohort are those of the list the pass
    wrote, in some order: floor(n/2) of them carry the control label and
    ceil(n/2) the treatment label, so the sizes the pass returns are the
    sizes found in the store. *)
Theorem stored_groups_match_sizes {G : Type} `{!Random G}
    (date : Z) (c : list user) (g : G) :
  NoDup (_id <$> c) →
  let n := length (cohort date c) in
  let stored :=
    cohort date (Experiment._assign_groups_for_date date c g).1.1 in
  length stored = n
  ∧ Forall assigned stored
  ∧ length (filter (λ u, group u = Some CONTROL) stored) = (n / 2)%nat
  ∧ length (filter (λ u, group u = Some TREATMENT) stored)
    = ((n + 1) / 2)%nat.
Proof.
  intros Hc n stored. subst stored.
  pose proof (cohort_after_pass date c g Hc) as Hp.
  destruct (labelled_count date c g) as [Hctl Htrt].
  split_and!.
  - rewrite (Permutation_length Hp). apply labelled_length.
  - apply Forall_forall. intros u Hu.
    apply (labelled_fields date c g).
    by apply (elem_of_Permutation_proper _ _ _ Hp).
  - rewrite (Permutation_length
               (filter_Permutation (λ u, group u = Some CONTROL) _ _ Hp)).
    exact Hctl.
  - rewrite (Permutation_length
               (filter_Permutation (λ u, group u = Some TREATMENT) _ _ Hp)).
    exact Htrt.
Qed.

Lemma stored_groups_match_sizes_witness :
  NoDup (_id <$> ten_applicants)
  ∧ length (cohort 0 (Experiment._assign_groups_for_date 0 ten_applicants
                        (seed 42 : Z)).1.1)
    = length (cohort 0 ten_applicants).
Proof.
  assert (NoDup (_id <$> ten_applicants)) as Hc.
  { apply (bool_decide_unpack _). vm_compute. exact I. }
  split; [exact Hc|].
  exact (proj1 (stored_groups_match_sizes 0 ten_applicants (seed 42 : Z) Hc)).
Defined.

(** ** What a run with assignment returns *)

Lemma window_count_split (a b d : Z) (c : list user) :
  a ≤ b ≤ d →
  length (filter (q_created_incomplete a d) c)
  = (length (filter (q_created_incomplete a b) c)
     + length (filter (q_created_incomplete b d) c))%nat.
Proof.
  intros Hab. induction c as [|u c IH]; [done|].
  pose proof (window_split a b d u Hab) as Hs.
  pose proof (window_disjoint a b d u) as Hd.
  rewrite !filter_cons.
  destruct (decide (q_created_incomplete a d u)),
           (decide (q_created_incomplete a b u)),
           (decide (q_created_incomplete b d u));
    cbn [length]; try lia; tauto.
Qed.

Lemma window_count_empty (a d : Z) (c : list user) :
  d ≤ a → length (filter (q_created_incomplete a d) c) = 0%nat.
Proof.
  intros Hda. rewrite filter_none; [done|]. apply Forall_forall.
  intros u _ [[? ?] _]. lia.
Qed.

Lemma window_count_base (a d : Z) (c c' : list user) :
  base <$> c = base <$> c' →
  length (filter (q_created_incomplete a d) c)
  = length (filter (q_created_incomplete a d) c').
Proof.
  intros Hb. pose proof (find_cohort_base a d c c' Hb) as Hf.
  unfold Collection.find in Hf.
  by rewrite <- (length_fmap base), Hf, length_fmap.
Qed.

Section run_results.
Context {G : Type} `{!Random G}.
Implicit Types (c : list user) (g : G).

Lemma run_days_assign_results fuel current end_date c g acc :
  current + Z.of_nat fuel * one_day ≤ end_date →
  ∃ daily,
    (Experiment.run_days fuel true current end_date c g acc).2
    = acc ++ daily
    ∧ fst <$> daily
      = (λ j : nat, current + Z.of_nat j * one_day) <$> seq 0 fuel
    ∧ sum_list_with (λ day, default 0%nat (day.2 !! "n"%string)) daily
      = length (filter (q_created_incomplete current
                          (current + Z.of_nat fuel * one_day)) c).
Proof.
  pose proof one_day_pos as Hpos.
  revert current c g acc.
  induction fuel as [|fuel IH]; intros current c g acc Hle.
  - exists []. rewrite app_nil_r. split_and!; [done..|].
    by rewrite window_count_empty by lia.
  - rewrite Nat2Z.inj_succ, Z.mul_succ_l in Hle |- *.
    assert (0 ≤ Z.of_nat fuel * one_day) as Hnn
      by (apply Z.mul_nonneg_nonneg; lia).
    cbn [Experiment.run_days]. rewrite decide_True by lia.
    pose proof (assign_result current c g) as Hr. cbv zeta in Hr.
    pose proof (assign_base current c g) as Hb.
    destruct (Experiment._assign_groups_for_date current c g)
      as [[c1 g1] r1]. cbn [fst snd] in *.
    destruct (IH (current + one_day) c1 g1 (acc ++ [(current, r1)]))
      as (daily & Hrun & Hkeys & Hsum); [lia|].
    exists ((current, r1) :: daily). split_and!.
    + by rewrite Hrun, <- app_assoc.
    + rewrite fmap_cons, Hkeys. cbn [seq fmap list_fmap fst].
      f_equal; [lia|]. rewrite <- fmap_S_seq, <- list_fmap_compose.
      apply list_fmap_ext. intros i j _. cbn. lia.
    + cbn [sum_list_with snd]. rewrite Hsum, Hr, lookup_insert_eq.
      cbn [default from_option].
      replace (current + (Z.of_nat fuel * one_day + one_day))
        with (current + one_day + Z.of_nat fuel * one_day) by lia.
      rewrite (window_count_split current (current + one_day)
                 (current + one_day + Z.of_nat fuel * one_day)) by lia.
      by rewrite (window_count_base _ _ c1 c Hb).
Qed.
End run_results.

Lemma run_experiment_returns {G : Type} `{!Random G}
    (now days_ seed_ : Z) (c : list user) (g : G) :
  let end_date := now - now `mod` one_day in
  let start_date := end_date - days_ * one_day in
  ∃ r,
    (Experiment.run_experiment now days_ true seed_ c g).2 = Ok r
    ∧ Experiment._calculate_experiment_stats
        (Experiment.run_experiment now days_ true seed_ c g).1.1
      = Ok (statistics r)
    ∧ days r = days_
    ∧ total_assigned r
      = Collection.count_documents
          (q_created_incomplete start_date end_date) c
    ∧ fst <$> daily_results r
      = (λ j : nat, start_date + Z.of_nat j * one_day)
          <$> seq 0 (Z.to_nat days_).
Proof.
  intros end_date start_date. pose proof one_day_pos as Hpos.
  unfold Experiment.run_experiment. cbv zeta.
  fold end_date. fold start_date.
  assert (∃ daily,
            (Experiment.run_days (Z.to_nat days_) true start_date end_date
               c (seed seed_) []).2 = daily
            ∧ fst <$> daily
              = (λ j : nat, start_date + Z.of_nat j * one_day)
                  <$> seq 0 (Z.to_nat days_)
            ∧ sum_list_with (λ day, default 0%nat (day.2 !! "n"%string)) daily
              = length (filter (q_created_incomplete start_date end_date) c))
    as (daily & Hrun & Hkeys & Hsum).
  { destruct (decide (days_ ≤ 0)) as [Hd|Hd].
    - replace (Z.to_nat days_) with 0%nat by lia. exists [].
      split_and!; [done..|].
      rewrite window_count_empty; [done|]. subst start_date. nia.
    - destruct (run_days_assign_results (Z.to_nat days_) start_date end_date
                  c (seed seed_) []) as (daily & Hrun & Hkeys & Hsum);
        [subst start_date; lia|].
      replace (start_date + Z.of_nat (Z.to_nat days_) * one_day)
        with end_date in Hsum by (subst start_date; lia).
      by exists daily. }
  destruct (Experiment.run_days (Z.to_nat days_) true start_date end_date
              c (seed seed_) []) as [[c1 g1] d1]. cbn [fst snd] in *.
  subst d1.
  pose proof (calculate_stats_ok c1) as Hs. cbv zeta in Hs. rewrite Hs.
  eexists. split; [reflexivity|]. cbn [days total_assigned daily_results
                                       statistics].
  by rewrite Hsum.
Qed.


(** ** The statistics of a run that starts from a reset collection *)

Lemma count_pointwise {A B} (P : A → Prop) (Q : B → Prop)
    `{!∀ x, Decision (P x)} `{!∀ y, Decision (Q y)}
    (l : list A) (l' : list B) :
  length l = length l' →
  (∀ k x y, l !! k = Some x → l' !! k = Some y → (P x ↔ Q y)) →
  length (filter P l) = length (filter Q l').
Proof.
  revert l'. induction l as [|x l IH]; intros [|y l'] Hlen Hpq; try done.
  rewrite !filter_cons.
  pose proof (Hpq 0%nat x y eq_refl eq_refl) as Hhead.
  assert (length (filter P l) = length (filter Q l')) as IH'.
  { apply IH; [by injection Hlen|]. intros k. apply (Hpq (S k)). }
  destruct (decide (P x)), (decide (Q y)); cbn [length]; try tauto; lia.
Qed.

Lemma count_disjoint {A} (P Q : A → Prop)
    `{!∀ x, Decision (P x)} `{!∀ x, Decision (Q x)} (l : list A) :
  (∀ x, P x → ¬ Q x) →
  (length (filter P l) + length (filter Q l))%nat
  = length (filter (λ x, P x ∨ Q x) l).
Proof.
  intros Hd. induction l as [|x l IH]; [done|]. rewrite !filter_cons.
  pose proof (Hd x).
  destruct (decide (P x)), (decide (Q x)), (decide (P x ∨ Q x));
    cbn [length]; try tauto; lia.
Qed.

Lemma rate_of_zero (total : nat) : rate_of 0 total = 0%Qc.
Proof.
  unfold rate_of. case_decide; [done|].
  assert (Qc_of_Z (Z.of_nat 0) = 0%Qc) as -> by by apply Qc_is_canon.
  unfold Qcdiv. apply Qcmult_0_l.
Qed.

(** X9. When [run_experiment] with assignment starts from a collection
    with unique [_id]s in which no document is marked, as [reset] leaves
    it, the statistics it returns report no completed quiz: both completed
    counts, both completion rates and the difference are 0, and the two
    group totals add up to [total_assigned]. Only records with status
    incomplete are ever assigned. *)
Theorem run_statistics_after_reset {G : Type} `{!Random G}
    (now days_ seed_ : Z) (c : list user) (g : G) :
  NoDup (_id <$> c) →
  Forall (λ u, inExperiment u ≠ Some true) c →
  ∃ r,
    (Experiment.run_experiment now days_ true seed_ c g).2 = Ok r
    ∧ completed (control_group (statistics r)) = 0%nat
    ∧ completed (treatment_group (statistics r)) = 0%nat
    ∧ completion_rate (control_group (statistics r)) = 0%Qc
    ∧ completion_rate (treatment_group (statistics r)) = 0%Qc
    ∧ difference (statistics r) = 0%Qc
    ∧ (total (control_group (statistics r))
       + total (treatment_group (statistics r)))%nat
      = total_assigned r.
Proof.
  intros Hc Hclean.
  destruct (run_experiment_returns now days_ seed_ c g)
    as (r & Hr & Hs & _ & Ht & _).
  set (c' := (Experiment.run_experiment now days_ true seed_ c g).1.1) in *.
  set (end_date := now - now `mod` one_day) in *.
  set (start_date := end_date - days_ * one_day) in *.
  assert (length c = length c') as Hlen
    by (symmetry; apply run_experiment_length).
  assert (∀ k v v', c !! k = Some v → c' !! k = Some v' →
            base v' = base v
            ∧ (q_created_incomplete start_date end_date v ↔ assigned v'))
    as Hpt.
  { intros k v v' Hk Hk'.
    destruct (run_experiment_pointwise now days_ seed_ c g k v Hc Hk)
      as (v'' & Hk'' & Hb & Hin & Hout).
    fold c' in Hk''. rewrite Hk' in Hk''. injection Hk'' as <-.
    split; [done|]. split; [done|].
    intros [Hie _]. destruct (decide (q_created_incomplete start_date
                                         end_date v)) as [|Hq]; [done|].
    rewrite (Hout Hq) in Hie. rewrite Forall_forall in Hclean.
    exfalso. apply (Hclean v); [by eapply list_elem_of_lookup_2|done]. }
  assert (∀ grp, Collection.count_documents (q_group_complete grp) c'
                 = 0%nat) as Hcompl.
  { intros grp. unfold Collection.count_documents.
    rewrite filter_none; [done|]. apply Forall_forall.
    intros v' [k Hk']%list_elem_of_lookup [[Hie Hg] Hquiz].
    destruct (lookup_same_length c c' k v' Hlen Hk') as [v Hk].
    destruct (Hpt k v v' Hk Hk') as [Hb Hiff].
    destruct (decide (q_created_incomplete start_date end_date v))
      as [[_ Hq]|Hq].
    - unfold base in Hb. congruence.
    - destruct (run_experiment_pointwise now days_ seed_ c g k v Hc Hk)
        as (v'' & Hk'' & _ & _ & Hout).
      fold c' in Hk''. rewrite Hk' in Hk''. injection Hk'' as <-.
      rewrite (Hout Hq) in Hie. rewrite Forall_forall in Hclean.
      apply (Hclean v); [by eapply list_elem_of_lookup_2|done]. }
  pose proof (calculate_stats_ok c') as Hok. cbv zeta in Hok.
  rewrite Hok in Hs. injection Hs as Hs. exists r. split; [done|].
  rewrite <- Hs.
  cbn [completed completion_rate control_group treatment_group difference
       total].
  rewrite !Hcompl, !rate_of_zero.
  split_and!; [done..|].
  rewrite Ht. unfold Collection.count_documents.
  rewrite count_disjoint.
  2:{ intros u [_ Hg1] [_ Hg2]. rewrite Hg1 in Hg2. discriminate Hg2. }
  symmetry. apply count_pointwise; [done|].
  intros k v v' Hk Hk'. destruct (Hpt k v v' Hk Hk') as [_ ->].
  unfold assigned, q_group. tauto.
Qed.

Lemma run_statistics_after_reset_witness :
  NoDup (_id <$> ten_applicants)
  ∧ Forall (λ u, inExperiment u ≠ Some true) ten_applicants
  ∧ ∃ r,
      (Experiment.run_experiment 86400000005 1 true 42 ten_applicants
         (7 : Z)).2 = Ok r
      ∧ completed (control_group (statistics r)) = 0%nat
      ∧ completed (treatment_group (statistics r)) = 0%nat
      ∧ completion_rate (control_group (statistics r)) = 0%Qc
      ∧ completion_rate (treatment_group (statistics r)) = 0%Qc
      ∧ difference (statistics r) = 0%Qc
      ∧ (total (control_group (statistics r))
         + total (treatment_group (statistics r)))%nat
        = total_assigned r.
Proof.
  assert (NoDup (_id <$> ten_applicants)) as Hc.
  { apply (bool_decide_unpack _). vm_compute. exact I. }
  assert (Forall (λ u, inExperiment u ≠ Some true) ten_applicants) as Hclean.
  { apply (bool_decide_unpack _). vm_compute. exact I. }
  split_and!; [exact Hc|exact Hclean|].
  exact (run_statistics_after_reset 86400000005 1 42 ten_applicants (7 : Z)
           Hc Hclean).
Defined.

(** ** The experiment fields stay paired *)

Lemma update_one_Forall (P : user → Prop) (q : user → Prop)
    `{!∀ u, Decision (q u)} (upd : user → user) (c : list user) :
  (∀ u, P (upd u)) → Forall P c →
  Forall P (Collection.update_one q upd c).1.
Proof.
  intros Hupd. induction 1 as [|u c Hu Hc IH]; [constructor|].
  cbn [Collection.update_one]. destruct (decide (q u)); cbn [fst].
  - by constructor.
  - destruct (Collection.update_one q upd c) as [c'' r]. cbn [fst] in *.
    by constructor.
Qed.

Lemma update_all_fields_paired (us c : list user) :
  Forall (λ u, inExperiment u = Some true) us →
  Forall fields_paired c →
  Forall fields_paired (Experiment.update_all us c).1.1.
Proof.
  induction us as [|u us IH] using rev_ind; [done|].
  rewrite Forall_app, Forall_singleton. intros [Hus Hu] Hc.
  rewrite update_all_snoc. specialize (IH Hus Hc).
  destruct (Experiment.update_all us c) as [[c1 m] md]. cbn [fst] in *.
  pose proof (update_one_Forall fields_paired (q_id (_id u))
                (Collection.set_experiment (inExperiment u) (group u)) c1)
    as H1.
  destruct (Collection.update_one _ _ c1) as [c2 r]. cbn [fst] in *.
  apply H1; [|done]. intros v _. cbn. done.
Qed.

Lemma reset_fields_paired (c : list user) :
  Forall fields_paired c → Forall fields_paired (Reset.reset_collection c).1.
Proof.
  intros Hc. rewrite reset_collection_fst, Forall_fmap.
  eapply Forall_impl; [exact Hc|]. intros u Hu. cbn.
  case_decide; [|done]. intros [[b Hb]|[s Hs]]; discriminate.
Qed.

Section paired.
Context {G : Type} `{!Random G}.
Implicit Types (c : list user) (g : G).

Lemma assign_fields_paired date c g :
  Forall fields_paired c →
  Forall fields_paired (Experiment._assign_groups_for_date date c g).1.1.
Proof.
  intros Hc. rewrite assign_unfold. cbv zeta. cbn [fst].
  apply update_all_fields_paired; [|done].
  apply Forall_forall. intros u Hu.
  by destruct (labelled_fields date c g u Hu).
Qed.

Lemma run_days_fields_paired fuel a current end_date c g acc :
  Forall fields_paired c →
  Forall fields_paired
    (Experiment.run_days fuel a current end_date c g acc).1.1.
Proof.
  revert current c g acc.
  induction fuel as [|fuel IH]; intros current c g acc Hc; [done|].
  cbn [Experiment.run_days]. destruct (decide (current < end_date)); [|done].
  destruct a; [|by apply IH].
  pose proof (assign_fields_paired current c g Hc) as H1.
  destruct (Experiment._assign_groups_for_date current c g) as [[c1 g1] r1].
  by apply IH.
Qed.
End paired.

(** X10. Reset and run keep the experiment fields paired: if every document
    that has [inExperiment] or [group] has [inExperiment] true before, the
    same holds after [reset_collection] and after [run_experiment], with or
    without assignment, for every number of days and every seed. *)
Theorem fields_stay_paired {G : Type} `{!Random G}
    (now days_ : Z) (a : bool) (seed_ : Z) (c : list user) (g : G) :
  Forall fields_paired c →
  Forall fields_paired (Reset.reset_collection c).1
  ∧ Forall fields_paired
      (Experiment.run_experiment now days_ a seed_ c g).1.1.
Proof.
  intros Hc. split; [by apply reset_fields_paired|].
  rewrite run_experiment_store. by apply run_days_fields_paired.
Qed.

Lemma fields_stay_paired_witness :
  Forall fields_paired ten_applicants
  ∧ Forall fields_paired (Reset.reset_collection ten_applicants).1
  ∧ Forall fields_paired
      (Experiment.run_experiment 86400000005 1 true 42 ten_applicants
         (7 : Z)).1.1.
Proof.
  assert (Forall fields_paired ten_applicants) as Hc.
  { repeat constructor; by intros [[? [=]]|[? [=]]]. }
  split; [exact Hc|].
  exact (fields_stay_paired 86400000005 1 true 42 ten_applicants (7 : Z) Hc).
Defined.

(** ** The contingency table: errors, honest tables, shape *)

Lemma frame_nil_iff (c : list user) :
  frame c = []
  ↔ Forall (λ u, group u = None) (Collection.find q_in_experiment c).
Proof.
  rewrite Forall_forall. split.
  - intros Hnil u Hu.
    apply list_elem_of_filter in Hu as [Hie Hu].
    destruct (group u) as [gu|] eqn:Hg; [|done]. exfalso.
    apply (frame_nonempty c u Hu Hie); [by eexists|done].
  - intros Hall. destruct (frame c) as [|r l] eqn:Hf; [done|]. exfalso.
    assert (r ∈ frame c) as Hr by (rewrite Hf; apply list_elem_of_here).
    apply frame_elem in Hr as (u & Hu & Hie & gu & Hg & _).
    rewrite (Hall u) in Hg; [done|]. by apply list_elem_of_filter.
Qed.

(** X11. [get_contingency_table] returns a table exactly when some document
    marked [inExperiment] has a group; with no marked document it raises
    [KeyError] for the column ["admissionsQuiz"], with marked documents
    none of which has a group it raises [KeyError] for ["group"]; it never
    raises [IndexError]: the rows it copies always exist. *)
Theorem contingency_table_errors (c : list user) :
  ((∃ u, u ∈ c ∧ inExperiment u = Some true ∧ is_Some (group u))
   ↔ ∃ t, MongoRepository.get_contingency_table c = Ok t)
  ∧ (Collection.find q_in_experiment c = [] →
     MongoRepository.get_contingency_table c
     = Raise (KeyError "admissionsQuiz"))
  ∧ (Collection.find q_in_experiment c ≠ [] →
     Forall (λ u, group u = None) (Collection.find q_in_experiment c) →
     MongoRepository.get_contingency_table c = Raise (KeyError "group"))
  ∧ MongoRepository.get_contingency_table c ≠ Raise IndexError.
Proof.
  assert (Collection.find q_in_experiment c = [] →
          MongoRepository.get_contingency_table c
          = Raise (KeyError "admissionsQuiz")) as Hempty.
  { intros Hnil. unfold MongoRepository.get_contingency_table.
    by rewrite decide_True. }
  assert (Collection.find q_in_experiment c ≠ [] →
          Forall (λ u, group u = None) (Collection.find q_in_experiment c) →
          MongoRepository.get_contingency_table c = Raise (KeyError "group"))
    as Hnogroup.
  { intros Hne Hall. unfold MongoRepository.get_contingency_table.
    by rewrite decide_False, decide_True. }
  split_and!; [|done|done|].
  - split.
    + intros (u & Hu & Hie & Hg).
      rewrite table_of_frame by by eapply frame_nonempty. by eexists.
    + intros [t Ht].
      destruct (decide (Collection.find q_in_experiment c = [])) as [Hnil|Hne].
      { rewrite (Hempty Hnil) in Ht. discriminate Ht. }
      destruct (decide (Forall (λ u, group u = None)
                          (Collection.find q_in_experiment c))) as [Hall|Hsome].
      { rewrite (Hnogroup Hne Hall) in Ht. discriminate Ht. }
      rewrite <- frame_nil_iff in Hsome.
      destruct (frame c) as [|r l] eqn:Hf; [done|].
      assert (r ∈ frame c) as Hr by (rewrite Hf; apply list_elem_of_here).
      apply frame_elem in Hr as (u & Hu & Hie & gu & Hg & _).
      exists u. split_and!; [done..|]. by eexists.
  - destruct (decide (Collection.find q_in_experiment c = [])) as [Hnil|Hne].
    { by rewrite (Hempty Hnil). }
    destruct (decide (Forall (λ u, group u = None)
                        (Collection.find q_in_experiment c))) as [Hall|Hsome].
    { by rewrite (Hnogroup Hne Hall). }
    rewrite <- frame_nil_iff in Hsome. by rewrite table_of_frame.
Qed.

(** X12. When some assigned document really has the status ["completed"],
    no row is made up: the table is returned, each of its cells is the
    number of stored documents marked [inExperiment] with that group and
    status, and its row and column labels are the groups and statuses
    stored with such documents. *)
Theorem completed_present_table_honest (c : list user) (u0 : user) :
  u0 ∈ c → inExperiment u0 = Some true → is_Some (group u0) →
  admissionsQuiz u0 = "completed"%string →
  ∃ t,
    MongoRepository.get_contingency_table c = Ok t
    ∧ (∀ g s, MongoRepository.cell t g s = stored_count c g s)
    ∧ (∀ g, g ∈ MongoRepository.index t
            ↔ ∃ u, u ∈ c ∧ inExperiment u = Some true ∧ group u = Some g)
    ∧ (∀ s, s ∈ MongoRepository.columns t
            ↔ ∃ u, u ∈ c ∧ inExperiment u = Some true ∧ is_Some (group u)
                   ∧ admissionsQuiz u = s).
Proof.
  intros Hu0 Hie [g0 Hg0] Hq.
  assert (MongoRepository.Row (_id u0) (createdAt u0) "completed" true g0
          ∈ frame c) as Hr.
  { apply frame_elem. exists u0. split_and!; [done..|]. exists g0.
    by rewrite Hq. }
  rewrite table_of_frame.
  2:{ intros Hnil. rewrite Hnil in Hr. by apply elem_of_nil in Hr. }
  rewrite decide_True.
  2:{ apply list_elem_of_fmap.
      exists (MongoRepository.Row (_id u0) (createdAt u0) "completed"
                true g0).
      split; [reflexivity|exact Hr]. }
  eexists. split; [reflexivity|]. split_and!.
  - intros g s. by rewrite cell_crosstab, count_cell_frame.
  - intros g. cbn [MongoRepository.index MongoRepository.crosstab].
    rewrite elem_of_labels, list_elem_of_fmap. split.
    + intros (r & -> & (u & Hu & Hiu & gu & Hgu & ->)%frame_elem).
      by exists u.
    + intros (u & Hu & Hiu & Hgu).
      exists (MongoRepository.Row (_id u) (createdAt u) (admissionsQuiz u)
                true g).
      split; [done|]. apply frame_elem. exists u. split_and!; [done..|].
      by exists g.
  - intros s. cbn [MongoRepository.columns MongoRepository.crosstab].
    rewrite elem_of_labels, list_elem_of_fmap. split.
    + intros (r & -> & (u & Hu & Hiu & gu & Hgu & ->)%frame_elem).
      exists u. split_and!; [done..|by eexists|done].
    + intros (u & Hu & Hiu & [gu Hgu] & <-).
      exists (MongoRepository.Row (_id u) (createdAt u) (admissionsQuiz u)
                true gu).
      split; [done|]. apply frame_elem. exists u. split_and!; [done..|].
      by exists gu.
Qed.

Lemma completed_present_table_honest_witness :
  ∃ t,
    MongoRepository.get_contingency_table
      [User 1 10 "completed" (Some true) (Some CONTROL);
       User 2 20 "incomplete" (Some true) (Some TREATMENT)] = Ok t
    ∧ MongoRepository.cell t CONTROL "completed"
      = stored_count
          [User 1 10 "completed" (Some true) (Some CONTROL);
           User 2 20 "incomplete" (Some true) (Some TREATMENT)]
          CONTROL "completed".
Proof.
  destruct (completed_present_table_honest
              [User 1 10 "completed" (Some true) (Some CONTROL);
               User 2 20 "incomplete" (Some true) (Some TREATMENT)]
              (User 1 10 "completed" (Some true) (Some CONTROL)))
    as (t & Ht & Hcell & _).
  - apply list_elem_of_here.
  - reflexivity.
  - by eexists.
  - reflexivity.
  - exists t. split; [exact Ht|apply Hcell].
Defined.

Lemma synthetic_statuses (df : list MongoRepository.row) (s : string) :
  df ≠ [] →
  s ∈ MongoRepository.r_admissionsQuiz <$> synthetic df
  ↔ s = "completed"%string.
Proof.
  intros Hne. rewrite list_elem_of_fmap. split.
  - intros (r & -> & Hr).
    pose proof (synthetic_completed df) as Hall.
    rewrite Forall_forall in Hall. by apply Hall.
  - intros ->. pose proof (synthetic_length df Hne) as Hlen.
    destruct (synthetic df) as [|r l] eqn:Hs; [simpl in Hlen; lia|].
    exists r. split; [|apply list_elem_of_here].
    pose proof (synthetic_completed df) as Hall.
    rewrite Hs in Hall. by apply Forall_cons in Hall as [-> _].
Qed.

Lemma synthetic_groups (df : list MongoRepository.row) (g : string) :
  g ∈ MongoRepository.r_group <$> synthetic df →
  g ∈ MongoRepository.r_group <$> df.
Proof.
  intros (r & -> & (r0 & Hr0 & ->)%synthetic_copies)%list_elem_of_fmap.
  cbn [MongoRepository.with_quiz MongoRepository.r_group].
  by apply list_elem_of_fmap_2.
Qed.

(** X13. When no stored assigned document has the status ["completed"] (and
    at least one document is assigned), the table has one column more than
    there are distinct stored statuses: the column labels are
    ["completed"] and the stored statuses, the row labels are the stored
    groups, and the matrix of counts is rectangular. With ["complete"] and
    ["incomplete"] both stored the table therefore has three columns. *)
Theorem degenerate_table_shape (c : list user) (u0 : user) :
  u0 ∈ c → inExperiment u0 = Some true → is_Some (group u0) →
  (∀ u, u ∈ c → inExperiment u = Some true →
        admissionsQuiz u ≠ "completed"%string) →
  ∃ t,
    MongoRepository.get_contingency_table c = Ok t
    ∧ MongoRepository.columns t
      ≡ₚ "completed"%string
         :: remove_dups (MongoRepository.r_admissionsQuiz <$> frame c)
    ∧ MongoRepository.index t
      ≡ₚ remove_dups (MongoRepository.r_group <$> frame c)
    ∧ length (MongoRepository.values t) = length (MongoRepository.index t)
    ∧ Forall (λ row, length row = length (MongoRepository.columns t))
        (MongoRepository.values t).
Proof.
  intros Hu0 Hie Hg Hc.
  pose proof (frame_nonempty c u0 Hu0 Hie Hg) as Hne.
  pose proof (frame_no_completed c Hc) as Hno.
  rewrite (table_degenerate c u0) by done.
  eexists. split; [reflexivity|].
  cbn [MongoRepository.columns MongoRepository.index MongoRepository.values
       MongoRepository.crosstab].
  split_and!.
  - unfold MongoRepository.labels.
    etrans; [apply merge_sort_Permutation|].
    apply NoDup_Permutation.
    + apply NoDup_remove_dups.
    + apply NoDup_cons. split; [|apply NoDup_remove_dups].
      by rewrite elem_of_remove_dups.
    + intros s. rewrite elem_of_remove_dups, fmap_app, elem_of_app,
        elem_of_cons, elem_of_remove_dups, (synthetic_statuses _ _ Hne).
      tauto.
  - unfold MongoRepository.labels.
    etrans; [apply merge_sort_Permutation|].
    apply NoDup_Permutation; [apply NoDup_remove_dups..|].
    intros g. rewrite !elem_of_remove_dups, fmap_app, elem_of_app.
    split; [|by left]. intros [?|?%synthetic_groups]; done.
  - by rewrite length_fmap.
  - apply Forall_fmap, Forall_forall. intros g _. cbn.
    by rewrite length_fmap.
Qed.

Lemma degenerate_table_shape_witness :
  ∃ t,
    MongoRepository.get_contingency_table mixed_assigned = Ok t
    ∧ MongoRepository.columns t
      ≡ₚ "completed"%string
         :: remove_dups (MongoRepository.r_admissionsQuiz
                           <$> frame mixed_assigned)
    ∧ MongoRepository.index t
      ≡ₚ remove_dups (MongoRepository.r_group <$> frame mixed_assigned)
    ∧ length (MongoRepository.values t) = length (MongoRepository.index t)
    ∧ Forall (λ row, length row = length (MongoRepository.columns t))
        (MongoRepository.values t).
Proof.
  apply (degenerate_table_shape mixed_assigned
           (User 1 10 "complete" (Some true) (Some CONTROL))).
  - apply list_elem_of_here.
  - reflexivity.
  - by eexists.
  - intros u Hu _. unfold mixed_assigned in Hu.
    apply elem_of_cons in Hu as [->|Hu]; [done|].
    apply elem_of_cons in Hu as [->|Hu]; [done|].
    by apply elem_of_nil in Hu.
Defined.

(** ** The history of daily arrivals *)

Lemma get_no_quiz_per_day_rows (c : list user) :
  MongoRepository.get_no_quiz_per_day c
  = match no_quiz_rows c with
    | [] => Raise (KeyError "date")
    | [(_, new_users)] => Ok (MongoRepository.Scalar new_users)
    | _ => Ok (MongoRepository.Series (no_quiz_rows c))
    end.
Proof. reflexivity. Qed.

Lemma day_of_eq (t : Z) :
  MongoRepository.day_of t = one_day * (t `div` one_day).
Proof.
  unfold MongoRepository.day_of.
  pose proof (Z.div_mod t one_day) as H. pose proof one_day_pos. lia.
Qed.

(** A timestamp falls on day [d] exactly when it lies in the interval the
    experiment uses for that day. *)
Lemma day_of_interval (t d : Z) :
  d `mod` one_day = 0 →
  MongoRepository.day_of t = d ↔ d ≤ t ∧ t < d + one_day.
Proof.
  intros Hd. pose proof one_day_pos as Hpos. rewrite day_of_eq.
  pose proof (Z.div_mod t one_day) as Ht.
  pose proof (Z.mod_pos_bound t one_day Hpos) as Hb.
  pose proof (Z.div_mod d one_day) as Hd'. rewrite Hd in Hd'.
  split.
  - intros <-. lia.
  - intros [H1 H2].
    assert (t `div` one_day = d `div` one_day) as ->; [|lia].
    symmetry. apply (Z.div_unique_pos t one_day _ (t - d)); lia.
Qed.

Lemma day_of_aligned (t : Z) : MongoRepository.day_of t `mod` one_day = 0.
Proof.
  rewrite day_of_eq, Z.mul_comm. apply Z.mod_mul. pose proof one_day_pos. lia.
Qed.

Lemma no_quiz_dates (c : list user) (d : Z) :
  d ∈ fst <$> no_quiz_rows c
  ↔ ∃ u, u ∈ incomplete c ∧ MongoRepository.day_of (createdAt u) = d.
Proof.
  unfold no_quiz_rows. rewrite <- list_fmap_compose.
  rewrite (list_fmap_ext _ id _ (λ _ _ _, eq_refl)), list_fmap_id.
  rewrite merge_sort_Permutation, elem_of_remove_dups, list_elem_of_fmap.
  split; intros (u & Hu & Hin); exists u; done.
Qed.

Lemma no_quiz_count (c : list user) (d : Z) :
  d `mod` one_day = 0 →
  length (filter (λ u, MongoRepository.day_of (createdAt u) = d)
            (incomplete c))
  = length (cohort d c).
Proof.
  intros Hd. unfold incomplete, cohort, Collection.find.
  rewrite list_filter_filter. f_equal. apply list_filter_iff.
  intros u. rewrite (day_of_interval _ d Hd).
  unfold q_created_incomplete. tauto.
Qed.

Lemma sum_partition {A} `{EqDecision B} (f : A → B) (L : list B)
    (l : list A) :
  NoDup L → (∀ x, x ∈ l → f x ∈ L) →
  sum_list_with (λ d, length (filter (λ x, f x = d) l)) L = length l.
Proof.
  intros HL. induction l as [|x l IH]; intros Hl.
  - apply sum_list_with_zero.
  - rewrite (sum_list_with_ext _
               (λ d, (if decide (f x = d) then 1 else 0)
                     + length (filter (λ y, f y = d) l))%nat).
    2:{ intros d _. rewrite filter_cons. by case_decide. }
    rewrite sum_list_with_plus, IH.
    2:{ intros y Hy. apply Hl. by apply list_elem_of_further. }
    assert (f x ∈ L) as Hx by apply Hl, list_elem_of_here.
    assert (sum_list_with (λ d, if decide (f x = d) then 1 else 0)%nat L
            = 1%nat) as ->; [|done].
    clear -HL Hx.
    induction HL as [|d L Hd _ IH]; [by apply elem_of_nil in Hx|].
    cbn [sum_list_with]. apply elem_of_cons in Hx as [->|Hx].
    + rewrite decide_True by done.
      rewrite (sum_list_with_ext _ (λ _, 0%nat)), sum_list_with_zero; [done|].
      intros y Hy. rewrite decide_False; [done|]. by intros <-.
    + rewrite decide_False by (by intros <-). by rewrite IH.
Qed.

Lemma sum_list_with_fmap {A B} (f : B → nat) (h : A → B) (l : list A) :
  sum_list_with f (h <$> l) = sum_list_with (f ∘ h) l.
Proof. induction l as [|x l IH]; [done|]. cbn. by rewrite <- IH. Qed.

Lemma no_quiz_rows_facts (c : list user) :
  Sorted Z.le (fst <$> no_quiz_rows c)
  ∧ NoDup (fst <$> no_quiz_rows c)
  ∧ sum_list_with snd (no_quiz_rows c) = length (incomplete c)
  ∧ Forall (λ row, (1 ≤ row.2)%nat
                   ∧ Experiment._count_users_for_date row.1 c
                     = {[ "count"%string := row.2 ]})
      (no_quiz_rows c).
Proof.
  assert (fst <$> no_quiz_rows c
          = merge_sort Z.le
              (remove_dups ((MongoRepository.day_of ∘ createdAt)
                              <$> incomplete c))) as Hfst.
  { unfold no_quiz_rows. rewrite <- list_fmap_compose.
    by rewrite (list_fmap_ext _ id _ (λ _ _ _, eq_refl)), list_fmap_id. }
  assert (NoDup (fst <$> no_quiz_rows c)) as Hnd.
  { rewrite Hfst, merge_sort_Permutation. apply NoDup_remove_dups. }
  split_and!.
  - rewrite Hfst. apply Sorted_merge_sort, _.
  - done.
  - unfold no_quiz_rows. rewrite sum_list_with_fmap. rewrite <- Hfst.
    apply (sum_partition (MongoRepository.day_of ∘ createdAt)); [done|].
    intros u Hu. apply no_quiz_dates. by exists u.
  - apply Forall_forall. intros [d n] Hrow.
    assert (d ∈ fst <$> no_quiz_rows c) as Hd
      by by apply (list_elem_of_fmap_2 fst _ (d, n)).
    apply no_quiz_dates in Hd as (u & Hu & Hday).
    assert (d `mod` one_day = 0) as Hal
      by (rewrite <- Hday; apply day_of_aligned).
    unfold no_quiz_rows in Hrow.
    apply list_elem_of_fmap in Hrow as (d' & [= -> ->] & _). cbn [fst snd].
    split.
    + assert (u ∈ filter (λ u, MongoRepository.day_of (createdAt u) = d')
                    (incomplete c)) as Hin by by apply list_elem_of_filter.
      destruct (filter _ (incomplete c)); [by apply elem_of_nil in Hin|].
      cbn. lia.
    + unfold Experiment._count_users_for_date, Collection.count_documents.
      by rewrite (no_quiz_count c d' Hal).
Qed.

(** X14. [get_no_quiz_per_day] raises [KeyError] for ["date"] exactly when
    no applicant has quiz status incomplete; when all such applicants
    signed up on one day it returns a bare number, their count, not a
    series; otherwise it returns a series of at least two rows with the
    days in increasing order without repetition, whose counts are positive,
    add up to the number of such applicants, and are each the count
    [_count_users_for_date] returns for that day. *)
Theorem no_quiz_history (c : list user) :
  match MongoRepository.get_no_quiz_per_day c with
  | Raise e => e = KeyError "date" ∧ incomplete c = []
  | Ok (MongoRepository.Scalar n) =>
      n = length (incomplete c) ∧ (1 ≤ n)%nat
      ∧ ∀ u v, u ∈ incomplete c → v ∈ incomplete c →
          MongoRepository.day_of (createdAt u)
          = MongoRepository.day_of (createdAt v)
  | Ok (MongoRepository.Series rows) =>
      (2 ≤ length rows)%nat
      ∧ Sorted Z.le (fst <$> rows)
      ∧ NoDup (fst <$> rows)
      ∧ sum_list_with snd rows = length (incomplete c)
      ∧ Forall (λ row, (1 ≤ row.2)%nat
                       ∧ Experiment._count_users_for_date row.1 c
                         = {[ "count"%string := row.2 ]}) rows
  end.
Proof.
  rewrite get_no_quiz_per_day_rows.
  destruct (no_quiz_rows_facts c) as (Hsorted & Hnd & Hsum & Hall).
  pose proof (no_quiz_dates c) as Hdates.
  destruct (no_quiz_rows c) as [|[d n] [|row rows]] eqn:Hrows.
  - split; [done|]. cbn in Hsum. symmetry in Hsum.
    by apply length_zero_iff_nil in Hsum.
  - cbn in Hsum. apply Forall_cons in Hall as [[Hn _] _]. cbn in Hn.
    split_and!; [lia|done|].
    intros u v Hu Hv.
    assert (MongoRepository.day_of (createdAt u) ∈ [d]) as Hdu
      by (apply (Hdates _); by exists u).
    assert (MongoRepository.day_of (createdAt v) ∈ [d]) as Hdv
      by (apply (Hdates _); by exists v).
    apply list_elem_of_singleton in Hdu, Hdv. congruence.
  - split_and!; [cbn; lia|done..].
Qed.

(** ** The order of degrees *)

Lemma mapping_unfold :
  MongoRepository.mapping
  = <[ "Doctorate (e.g. PhD)"%string := 4%nat ]>
      (<[ "Master's degree"%string := 3%nat ]>
         (<[ "Bachelor's degree"%string := 2%nat ]>
            (<[ "Some College (1-3 years)"%string := 1%nat ]>
               (<[ "High School or Baccalaureate"%string := 0%nat ]> ∅)))).
Proof. reflexivity. Qed.

(** The dictionary sends a label to its position in the ladder, and has no
    other key. *)
Lemma mapping_lookup (label : string) (k : nat) :
  MongoRepository.mapping !! label = Some k
  ↔ MongoRepository.degrees !! k = Some label.
Proof.
  rewrite mapping_unfold. unfold MongoRepository.degrees.
  rewrite !lookup_insert, lookup_empty. split.
  - repeat case_decide; intros [= <-]; by subst.
  - destruct k as [|[|[|[|[|k]]]]]; intros [= <-]; done.
Qed.

Lemma mapping_lookup_None (label : string) :
  MongoRepository.mapping !! label = None ↔ label ∉ MongoRepository.degrees.
Proof.
  rewrite eq_None_not_Some, list_elem_of_lookup. unfold is_Some.
  split; intros Hn [k Hk]; apply Hn; exists k; by apply mapping_lookup.
Qed.

(** X15. [__ed_sort] maps a list of known degree labels to their positions
    in the ladder from High School to Doctorate, one position per label in
    the same order, so the position read back in the ladder is the label;
    at the first label that is not one of the five it raises [KeyError]
    with that label. *)
Theorem ed_sort_positions (counts : list string) :
  (Forall (λ label, label ∈ MongoRepository.degrees) counts →
   ∃ sort_order,
     MongoRepository.__ed_sort counts = Ok sort_order
     ∧ Forall2 (λ label k, MongoRepository.degrees !! k = Some label)
         counts sort_order)
  ∧ (∀ known label rest,
       counts = known ++ label :: rest →
       Forall (λ label, label ∈ MongoRepository.degrees) known →
       label ∉ MongoRepository.degrees →
       MongoRepository.__ed_sort counts = Raise (KeyError label)).
Proof.
  assert (∀ l, Forall (λ label, label ∈ MongoRepository.degrees) l →
               ∃ sort_order,
                 MongoRepository.__ed_sort l = Ok sort_order
                 ∧ Forall2 (λ label k,
                              MongoRepository.degrees !! k = Some label)
                     l sort_order) as Hok.
  { induction 1 as [|label l Hlabel _ (order & IH & Hall)].
    - by exists [].
    - apply list_elem_of_lookup in Hlabel as [k Hk].
      exists (k :: order). cbn [MongoRepository.__ed_sort].
      rewrite (proj2 (mapping_lookup label k) Hk), IH. split; [done|].
      by constructor. }
  split; [apply Hok|].
  intros known label rest -> Hknown Hlabel.
  induction Hknown as [|x known Hx _ IH]; cbn [app MongoRepository.__ed_sort].
  - by rewrite (proj2 (mapping_lookup_None label) Hlabel).
  - apply list_elem_of_lookup in Hx as [k Hk].
    by rewrite (proj2 (mapping_lookup x k) Hk), IH.
Qed.

Lemma ed_sort_positions_witness :
  Forall (λ label, label ∈ MongoRepository.degrees)
    ["Master's degree"%string; "High School or Baccalaureate"%string]
  ∧ ∃ sort_order,
      MongoRepository.__ed_sort
        ["Master's degree"%string; "High School or Baccalaureate"%string]
      = Ok sort_order
      ∧ Forall2 (λ label k, MongoRepository.degrees !! k = Some label)
          ["Master's degree"%string; "High School or Baccalaureate"%string]
          sort_order.
Proof.
  assert (Forall (λ label, label ∈ MongoRepository.degrees)
            ["Master's degree"%string;
             "High School or Baccalaureate"%string]) as Hall.
  { apply (bool_decide_unpack _). vm_compute. exact I. }
  split; [exact Hall|].
  exact (proj1 (ed_sort_positions _) Hall).
Defined.

(** ** StatsBuilder.run_experiment: which collection is reset *)

Lemma get_set_collection (mc : mongo_client) (h : string * string)
    (c : list user) :
  length c = length (get_collection mc h) →
  get_collection (set_collection mc h c) h = c.
Proof.
  unfold get_collection, set_collection. intros Hlen.
  destruct (mc !! h.1) as [db|] eqn:Hdb; cbn in *.
  - destruct (db !! h.2) as [c0|] eqn:Hc; cbn in *.
    + rewrite lookup_insert_eq. cbn. by rewrite lookup_insert_eq.
    + rewrite Hdb. cbn. rewrite Hc. cbn. by destruct c.
  - rewrite Hdb. cbn. by destruct c.
Qed.

Lemma get_collection_after_reset (mc : mongo_client) (db_name : string)
    (h : string * string) :
  get_collection
    (store_of (Reset.reset_database (Reset.OfMongoClient mc) db_name).1 mc) h
  = if decide (h.1 = db_name)
    then (Reset.reset_collection (get_collection mc h)).1
    else get_collection mc h.
Proof.
  unfold get_collection. cbn [Reset.reset_database].
  destruct (mc !! db_name) as [db|] eqn:Hdb; cbn [fst store_of].
  - destruct (decide (h.1 = db_name)) as [->|Hne].
    + rewrite lookup_insert_eq, Hdb. cbn. rewrite lookup_fmap.
      by destruct (db !! h.2).
    + by rewrite lookup_insert_ne.
  - destruct (decide (h.1 = db_name)) as [->|Hne]; [|done].
    by rewrite Hdb.
Qed.

Section stats_builder.
Context {G : Type} `{!Random G}.

Lemma stats_builder_run (repo : string * string) (now days_ : Z)
    (mc : mongo_client) (g : G) :
  let before :=
    if decide (repo.1 = "wqu-abtest"%string)
    then (Reset.reset_collection (get_collection mc repo)).1
    else get_collection mc repo in
  get_collection (StatsBuilder.run_experiment repo now days_ mc g).1.1 repo
  = (Experiment.run_experiment now days_ true 42 before g).1.1
  ∧ (StatsBuilder.run_experiment repo now days_ mc g).2 = Ok ().
Proof.
  intros before. unfold StatsBuilder.run_experiment.
  cbn [Experiment.init Experiment.collection].
  unfold Experiment.reset_experiment. cbn [Experiment.db_name].
  pose proof (get_collection_after_reset mc "wqu-abtest" repo) as Hget.
  destruct (Reset.reset_database (Reset.OfMongoClient mc) "wqu-abtest")
    as [cl res]. cbn [fst] in Hget. fold before in Hget. rewrite Hget.
  pose proof (run_experiment_length now days_ true 42 before g) as Hlen.
  destruct (run_experiment_returns now days_ 42 before g)
    as (r & Hr & _).
  destruct (Experiment.run_experiment now days_ true 42 before g)
    as [[c1 g1] res1]. cbn [fst snd] in *. subst res1. split; [|done].
  apply get_set_collection. by rewrite Hget.
Qed.
End stats_builder.


(** X17. With the repository on a database other than ["wqu-abtest"] and
    unique [_id]s, a document outside the window of the run is left by
    [StatsBuilder.run_experiment] exactly as it was, so an assignment made by
    an earlier, longer run stays in the collection. *)
Theorem stale_assignments_survive {G : Type} `{!Random G}
    (repo : string * string) (now days_ : Z) (mc : mongo_client) (g : G)
    (k : nat) (v : user) :
  repo.1 ≠ "wqu-abtest"%string →
  NoDup (_id <$> get_collection mc repo) →
  get_collection mc repo !! k = Some v →
  ¬ q_created_incomplete
      (now - now `mod` one_day - days_ * one_day)
      (now - now `mod` one_day) v →
  get_collection (StatsBuilder.run_experiment repo now days_ mc g).1.1 repo
    !! k = Some v.
Proof.
  intros Hdb Hnd Hk Hout.
  destruct (stats_builder_run repo now days_ mc g) as [Hc _].
  cbv zeta in Hc. rewrite decide_False in Hc by done. rewrite Hc.
  destruct (run_experiment_pointwise now days_ 42 (get_collection mc repo)
              g k v Hnd Hk) as (v' & Hk' & _ & _ & Hsame).
  by rewrite Hk', (Hsame Hout).
Qed.

Lemma stale_assignments_survive_witness :
  ("online_course"%string, "applicants"%string).1 ≠ "wqu-abtest"%string
  ∧ get_collection
      (StatsBuilder.run_experiment
         ("online_course"%string, "applicants"%string)
         5 1 store_stale (7 : Z)).1.1
      ("online_course"%string, "applicants"%string) !! 0%nat
    = Some (User 1 (-864000000000) "incomplete" (Some true)
              (Some TREATMENT)).
Proof.
  assert (("online_course"%string, "applicants"%string).1
          ≠ "wqu-abtest"%string) as Hdb by discriminate.
  split; [exact Hdb|].
  apply (stale_assignments_survive
           ("online_course"%string, "applicants"%string) 5 1 store_stale
           (7 : Z) 0
           (User 1 (-864000000000) "incomplete" (Some true)
              (Some TREATMENT)) Hdb).
  - apply (bool_decide_unpack _). vm_compute. exact I.
  - reflexivity.
  - intros [[Hle _] _]. vm_compute in Hle. by apply Hle.
Defined.


(** ** What [n_modified] counts *)

Lemma list_filter_iff_length {A} (P Q : A → Prop)
    `{!∀ x, Decision (P x)} `{!∀ x, Decision (Q x)} (l : list A) :
  (∀ x, x ∈ l → (P x ↔ Q x)) →
  length (filter P l) = length (filter Q l).
Proof.
  intros Hpq. apply count_pointwise; [done|].
  intros k x y Hx Hy. rewrite Hx in Hy. injection Hy as <-.
  apply Hpq. by eapply list_elem_of_lookup_2.
Qed.

Lemma update_one_by_id_modified (i : nat) (upd : user → user)
    (c : list user) :
  NoDup (_id <$> c) →
  modified_count (Collection.update_one (q_id i) upd c).2
  = length (filter (λ v, _id v = i ∧ upd v ≠ v) c).
Proof.
  induction c as [|u c IH]; [done|].
  rewrite fmap_cons, NoDup_cons. intros [Hu Hc].
  cbn [Collection.update_one]. unfold q_id at 1. rewrite filter_cons.
  destruct (decide (_id u = i)) as [Hi|Hi]; cbn [snd modified_count].
  - rewrite (filter_none (λ v, _id v = i ∧ upd v ≠ v) c).
    2:{ apply Forall_forall. intros v Hv [Hvi _]. apply Hu.
        rewrite Hi, <- Hvi. by apply list_elem_of_fmap_2. }
    unfold Collection.modified.
    destruct (decide (upd u = u)) as [Heq|Hne].
    + rewrite decide_False; [done|]. by intros [_ ?].
    + by rewrite decide_True.
  - specialize (IH Hc).
    destruct (Collection.update_one (q_id i) upd c) as [c'' r].
    cbn [snd] in *. rewrite decide_False; [done|]. by intros [? _].
Qed.

Lemma update_all_modified (us c : list user) :
  NoDup (_id <$> c) → NoDup (_id <$> us) →
  (Experiment.update_all us c).2
  = length (filter (λ v, relabel us v ≠ v) c).
Proof.
  intros Hc. induction us as [|u us IH] using rev_ind; intros Hus.
  - cbn. rewrite filter_none; [done|]. apply Forall_forall. by intros v _ [].
  - rewrite fmap_app, NoDup_app in Hus. destruct Hus as (Hus & Hu & _).
    assert (_id u ∉ _id <$> us) as Hfresh.
    { intros Hin. apply (Hu (_id u) Hin). cbn. apply list_elem_of_here. }
    rewrite update_all_snoc.
    pose proof (update_all_relabel us c Hc) as Hrel.
    pose proof (update_all_base us c) as Hb.
    specialize (IH Hus).
    destruct (Experiment.update_all us c) as [[c1 m] md]. cbn [fst snd] in *.
    assert (NoDup (_id <$> c1)) as Hc1 by by rewrite (base_ids _ _ Hb).
    pose proof (update_one_by_id_modified (_id u)
      (Collection.set_experiment (inExperiment u) (group u)) c1 Hc1) as H1.
    destruct (Collection.update_one _ _ c1) as [c2 r]. cbn [fst snd] in *.
    rewrite IH, H1, Hrel.
    assert (length (filter (λ v, _id v = _id u
                                 ∧ Collection.set_experiment
                                     (inExperiment u) (group u) v ≠ v)
                      (relabel us <$> c))
            = length (filter (λ v, _id v = _id u ∧ relabel_one u v ≠ v) c))
      as ->.
    { symmetry. apply count_pointwise; [by rewrite length_fmap|].
      intros k x y Hx. rewrite list_lookup_fmap, Hx. intros [= <-].
      rewrite relabel_id.
      destruct (decide (_id x = _id u)) as [Hv|Hv]; [|tauto].
      rewrite (relabel_miss us x) by by rewrite Hv.
      unfold relabel_one. rewrite decide_True by done. tauto. }
    rewrite count_disjoint.
    + apply list_filter_iff_length. intros v _.
      rewrite relabel_snoc.
      destruct (decide (_id v = _id u)) as [Hv|Hv].
      * rewrite (relabel_miss us v) by by rewrite Hv. tauto.
      * unfold relabel_one at 2.
        rewrite decide_False by by rewrite relabel_id. tauto.
    + intros v Hp [Hv _]. apply Hp, relabel_miss. by rewrite Hv.
Qed.

Lemma zip_fmap_self {A B} (f : A → B) (l : list A) :
  zip l (f <$> l) = (λ x, (x, f x)) <$> l.
Proof. induction l as [|x l IH]; [done|]. cbn. by rewrite <- IH. Qed.

(** X18. On a collection with unique [_id]s the [n_modified] a pass returns
    is the number of documents that are not the same after the pass as
    before it. When no record of the day's cohort is marked before the
    pass, as after a reset, it equals [n], the size of the cohort. *)
Theorem n_modified_counts_changes {G : Type} `{!Random G}
    (date : Z) (c : list user) (g : G) :
  NoDup (_id <$> c) →
  let out := Experiment._assign_groups_for_date date c g in
  out.2 !! "n_modified"%string
  = Some (length (filter (λ p, p.2 ≠ p.1) (zip c out.1.1)))
  ∧ (Forall (λ u, inExperiment u ≠ Some true) (cohort date c) →
     out.2 !! "n_modified"%string = Some (length (cohort date c))).
Proof.
  intros Hc out. subst out.
  assert ((Experiment._assign_groups_for_date date c g).2
            !! "n_modified"%string
          = Some (length (filter (λ v, relabel (labelled date c g) v ≠ v) c)))
    as Hmod.
  { rewrite assign_result. cbv zeta.
    rewrite lookup_insert_ne by done. rewrite lookup_insert_eq.
    rewrite update_all_modified; [done|done|by apply labelled_NoDup]. }
  rewrite Hmod. split.
  - f_equal. pose proof (assign_relabel date c g Hc) as Hrel.
    apply (f_equal fst) in Hrel. cbn [fst] in Hrel.
    rewrite Hrel, zip_fmap_self.
    apply count_pointwise; [by rewrite length_fmap|].
    intros k x y Hx. rewrite list_lookup_fmap, Hx. by intros [= <-].
  - intros Hfresh. f_equal. unfold cohort, Collection.find.
    apply list_filter_iff_length. intros v Hv.
    destruct (list_elem_of_lookup_1 _ _ Hv) as [k Hk].
    destruct (assign_pointwise date c g k v Hc Hk)
      as (v' & Hk' & _ & Hin & Hout).
    pose proof (assign_relabel date c g Hc) as Hrel.
    apply (f_equal fst) in Hrel. cbn [fst] in Hrel.
    rewrite Hrel, list_lookup_fmap, Hk in Hk'. injection Hk' as Hv'.
    rewrite Hv'. split.
    + intros Hne. destruct (decide (q_created_incomplete date
                                      (date + one_day) v)); [done|].
      exfalso. by apply Hne, Hout.
    + intros Hq Heq. destruct (Hin Hq) as [Hie _]. rewrite Heq in Hie.
      rewrite Forall_forall in Hfresh. apply (Hfresh v); [|done].
      by apply list_elem_of_filter.
Qed.

Lemma n_modified_counts_changes_witness :
  NoDup (_id <$> ten_applicants)
  ∧ (Experiment._assign_groups_for_date 0 ten_applicants (seed 42 : Z)).2
      !! "n_modified"%string
    = Some (length (filter (λ p : user * user, p.2 ≠ p.1)
                      (zip ten_applicants
                         (Experiment._assign_groups_for_date 0 ten_applicants
                            (seed 42 : Z)).1.1)))
  ∧ (Forall (λ u, inExperiment u ≠ Some true) (cohort 0 ten_applicants) →
     (Experiment._assign_groups_for_date 0 ten_applicants (seed 42 : Z)).2
       !! "n_modified"%string
     = Some (length (cohort 0 ten_applicants))).
Proof.
  assert (NoDup (_id <$> ten_applicants)) as Hc.
  { apply (bool_decide_unpack _). vm_compute. exact I. }
  split; [exact Hc|].
  exact (n_modified_counts_changes 0 ten_applicants (seed 42 : Z) Hc).
Defined.
